(** * EcoIuris AI CLI: the conversation state machine of [App.tsx]

    A shallow embedding of the React component [App] (src/App.tsx) and of
    [startChat] (services/geminiService): the component's state variables,
    its event handlers cut at their [await] points, the welcome animation
    timer, and the transcript export.  The hosted AI SDK, the browser's
    file reader and its HTML parser are external: their answers arrive as
    events, their inputs are recorded in the state. *)

From Stdlib Require Import String Ascii DecimalString NArith List Lia.
From stdpp Require Import base option list gmap.
Import ListNotations.

(** ** JavaScript strings

    A JS string is a sequence of UTF-16 code units; [length], indexing and
    [+=] work on code units. *)

Abbreviation jstring := (list N).

(** Decoding of a source literal (UTF-8 bytes, code points of the basic
    plane only) into code units. *)
Fixpoint js (s : string) : jstring :=
  match s with
  | EmptyString => []
  | String a s1 =>
      let b := N_of_ascii a in
      if (b <? 128)%N then b :: js s1
      else match s1 with
           | EmptyString => [b]
           | String a1 s2 =>
               let b1 := N_of_ascii a1 in
               if (b <? 224)%N then ((b - 192) * 64 + (b1 - 128))%N :: js s2
               else match s2 with
                    | EmptyString => [b; b1]
                    | String a2 s3 =>
                        let b2 := N_of_ascii a2 in
                        ((b - 224) * 4096 + (b1 - 128) * 64 + (b2 - 128))%N :: js s3
                    end
           end
  end.

Definition nl : jstring := [10%N].
Definition dq : jstring := [34%N].

(** [!!s] on a string: the empty string is the only falsy one. *)
Definition truthy (s : jstring) : bool :=
  match s with [] => false | _ :: _ => true end.

(** WhiteSpace and LineTerminator code units, as [String.prototype.trim]
    removes them. *)
Definition is_ws (c : N) : bool :=
  ((9 <=? c) && (c <=? 13) || (c =? 32) || (c =? 160) || (c =? 5760)
   || (8192 <=? c) && (c <=? 8202) || (c =? 8232) || (c =? 8233)
   || (c =? 8239) || (c =? 8287) || (c =? 12288) || (c =? 65279))%N.

Fixpoint trimStart (s : jstring) : jstring :=
  match s with
  | [] => []
  | c :: s' => if is_ws c then trimStart s' else s
  end.

Definition trim (s : jstring) : jstring :=
  rev (trimStart (rev (trimStart s))).

(** [Array.prototype.join]. *)
Fixpoint join (sep : jstring) (l : list jstring) : jstring :=
  match l with
  | [] => []
  | [x] => x
  | x :: l' => x ++ sep ++ join sep l'
  end.

(** Decimal rendering of a number inside a template literal. *)
Definition Number_toString (n : nat) : jstring :=
  js (NilEmpty.string_of_uint (Nat.to_uint n)).

(** ** Data of [App.tsx] *)

Inductive Role := user | model.

Record Citation := { uri : jstring; title : jstring }.

Record Message := {
  role : Role;
  text : jstring;
  citations : option (list Citation)
}.

Definition mkMsg (r : Role) (t : jstring) : Message :=
  {| role := r; text := t; citations := None |}.

Inductive AiModelKeys := ecoiuris | legal_pro | juscrawler | processual.

Record AiModel := { name : jstring; instruction : jstring }.

Definition AI_MODELS (k : AiModelKeys) : AiModel :=
  match k with
  | ecoiuris =>
      {| name := js "EcoIuris AI";
         instruction :=
           js "You are an AI assistant from EcoIuris AI. Your mission is to listen, translate, protect, and transform realities. Your motto is: "
           ++ dq ++ js "The right to exist. The power to evolve." ++ dq
           ++ js " You should provide helpful, ethical, and insightful responses to assist users." |}
  | legal_pro =>
      {| name := js "Gemini Legal Pro";
         instruction := js "You are a specialized legal AI assistant. Provide detailed and accurate information on legal matters, citing relevant laws and precedents. Always include a disclaimer that you are not a substitute for a human lawyer." |}
  | juscrawler =>
      {| name := js "JusCrawler";
         instruction := js "You are JusCrawler, an AI expert in legal data extraction and analysis. Scan and summarize legal documents, identify key entities, and provide concise reports based on the provided text." |}
  | processual =>
      {| name := js "Assistente Processual";
         instruction := js "You are a procedural assistant AI. Guide users through legal processes step-by-step. Your tone is helpful, clear, and focused on procedural accuracy." |}
  end.

Definition fullWelcomeMessageText : jstring :=
  nl ++
  js "<pre class=" ++ dq ++ js "text-xs sm:text-sm" ++ dq ++ js " style=" ++ dq
    ++ js "font-family: 'Source Code Pro', monospace; color: #87CEEB; line-height: 1;"
    ++ dq ++ js ">" ++ nl ++
  js "███████╗ ██████╗  ██████╗ ██╗ ██╗   ██╗ ██╗ ██████╗ ███████╗      █████╗ ██╗" ++ nl ++
  js "██╔════╝██╔═══██╗██╔═══██╗██║ ██║   ██║ ██║██╔════╝ ██╔════╝     ██╔══██╗██║" ++ nl ++
  js "█████╗  ██║   ██║██║   ██║██║ ██║   ██║ ██║██║  ███╗███████╗     ███████║██║" ++ nl ++
  js "██╔══╝  ██║   ██║██║   ██║██║ ╚██╗ ██╔╝ ██║██║   ██║╚════██║     ██╔══██║╚═╝" ++ nl ++
  js "███████╗╚██████╔╝╚██████╔╝██║  ╚████╔╝  ██║╚██████╔╝███████║     ██║  ██║██╗" ++ nl ++
  js "╚══════╝ ╚═════╝  ╚═════╝ ╚═╝   ╚═══╝   ╚═╝ ╚═════╝ ╚══════╝     ╚═╝  ╚═╝╚═╝" ++ nl ++
  js "</pre>" ++ nl ++
  js "Welcome to the EcoIuris AI CLI. How can I help you today?" ++ nl.

(** The cursor glyph of the animation, U+2588. *)
Definition cursor : jstring := js "█".

(** A user-selected file.  Its content reaches the program only through
    the file reader's answer, an event. *)
Record File := { file_name : jstring; file_type : jstring }.

(** Elements of [messageParts : (string | Part)[]]. *)
Inductive MessagePart :=
  | PartString (s : jstring)
  | PartInlineData (data mimeType : jstring).

(** A thrown value, as the [catch] blocks look at it:
    [e instanceof Error ? e.message : <fallback>]. *)
Inductive Thrown :=
  | ErrorObject (message : jstring)
  | OtherValue.

Definition errorMessage (e : Thrown) (fallback : jstring) : jstring :=
  match e with
  | ErrorObject m => m
  | OtherValue => fallback
  end.

(** ** The SDK objects the program creates and calls

    A [Chat] is the session object [ai.chats.create] returns: the
    parameters it was created with and, as its conversational context,
    the messages sent through it.  A one-shot [generateContent] call is
    recorded with its parameters. *)

Record Chat := {
  chat_model : jstring;
  systemInstruction : jstring;
  sent : list (list MessagePart)
}.

Inductive Tool := googleSearch.

Record GenerateContentConfig := {
  config_systemInstruction : option jstring;
  tools : list Tool
}.

Record GenerateContentParameters := {
  gc_model : jstring;
  contents : jstring;
  config : GenerateContentConfig
}.

(** What [handleDeepSearch] reads of the response: [response.text] and
    [response.candidates?.[0]?.groundingMetadata?.groundingChunks]
    ([None] when a link of the optional chain is undefined). *)
Record Web := { web_uri : option jstring; web_title : option jstring }.

Record GroundingChunk := { web : option Web }.

Record GenerateContentResponse := {
  response_text : jstring;
  groundingChunks : option (list GroundingChunk)
}.

(** services/geminiService: [startChat]. *)
Definition startChat (systemInstruction : jstring) : Chat :=
  {| chat_model := js "gemini-2.5-flash";
     systemInstruction := systemInstruction;
     sent := [] |}.

(** ** The component's state

    The closure of the [setInterval] callback of [animateWelcomeMessage]:
    its local variables [animatedText] and [i]. *)
Record Interval := { animatedText : jstring; frame_i : nat }.

(** An async handler suspended at an [await]: where it waits and the
    values of the render it closed over. *)
Inductive Pending :=
  | AwaitFilePart (chat : nat) (currentInput : jstring) (file : File)
      (* App.tsx:156, await fileToGenerativePart *)
  | AwaitStream
      (* App.tsx:160, await chat.sendMessageStream *)
  | InStream (modelResponse : jstring)
      (* App.tsx:165, for await (const chunk of stream) *)
  | AwaitGenerateContent.
      (* App.tsx:178, await ai.models.generateContent *)

(** The [useState] variables and the interval ref of [App], then the
    environment: the live timers of the page, the SDK objects created so
    far (a [chat] is a handle into [sessions]), the one-shot requests
    issued, and the suspended send handler if there is one. *)
Record State := {
  chat : option nat;
  messages : list Message;
  input : jstring;
  isLoading : bool;
  error : option jstring;
  currentModel : AiModelKeys;
  isDeepSearch : bool;
  attachedFile : option File;
  welcomeAnimationIntervalRef : option positive;
  intervals : gmap positive Interval;
  nextInterval : positive;
  sessions : list Chat;
  requests : list GenerateContentParameters;
  pending : option Pending
}.

(** One setter per field, named after the [useState] setters. *)
Definition setChat (v : option nat) (s : State) : State :=
  Build_State v (messages s) (input s) (isLoading s) (error s)
    (currentModel s) (isDeepSearch s) (attachedFile s)
    (welcomeAnimationIntervalRef s) (intervals s) (nextInterval s)
    (sessions s) (requests s) (pending s).
Definition setMessages (v : list Message) (s : State) : State :=
  Build_State (chat s) v (input s) (isLoading s) (error s) (currentModel s)
    (isDeepSearch s) (attachedFile s) (welcomeAnimationIntervalRef s)
    (intervals s) (nextInterval s) (sessions s) (requests s) (pending s).
Definition setInput (v : jstring) (s : State) : State :=
  Build_State (chat s) (messages s) v (isLoading s) (error s) (currentModel s)
    (isDeepSearch s) (attachedFile s) (welcomeAnimationIntervalRef s)
    (intervals s) (nextInterval s) (sessions s) (requests s) (pending s).
Definition setIsLoading (v : bool) (s : State) : State :=
  Build_State (chat s) (messages s) (input s) v (error s) (currentModel s)
    (isDeepSearch s) (attachedFile s) (welcomeAnimationIntervalRef s)
    (intervals s) (nextInterval s) (sessions s) (requests s) (pending s).
Definition setError (v : option jstring) (s : State) : State :=
  Build_State (chat s) (messages s) (input s) (isLoading s) v (currentModel s)
    (isDeepSearch s) (attachedFile s) (welcomeAnimationIntervalRef s)
    (intervals s) (nextInterval s) (sessions s) (requests s) (pending s).
Definition setCurrentModel (v : AiModelKeys) (s : State) : State :=
  Build_State (chat s) (messages s) (input s) (isLoading s) (error s) v
    (isDeepSearch s) (attachedFile s) (welcomeAnimationIntervalRef s)
    (intervals s) (nextInterval s) (sessions s) (requests s) (pending s).
Definition setIsDeepSearch (v : bool) (s : State) : State :=
  Build_State (chat s) (messages s) (input s) (isLoading s) (error s)
    (currentModel s) v (attachedFile s) (welcomeAnimationIntervalRef s)
    (intervals s) (nextInterval s) (sessions s) (requests s) (pending s).
Definition setAttachedFile (v : option File) (s : State) : State :=
  Build_State (chat s) (messages s) (input s) (isLoading s) (error s)
    (currentModel s) (isDeepSearch s) v (welcomeAnimationIntervalRef s)
    (intervals s) (nextInterval s) (sessions s) (requests s) (pending s).
Definition setWelcomeAnimationIntervalRef (v : option positive) (s : State) : State :=
  Build_State (chat s) (messages s) (input s) (isLoading s) (error s)
    (currentModel s) (isDeepSearch s) (attachedFile s) v (intervals s)
    (nextInterval s) (sessions s) (requests s) (pending s).
Definition setIntervals (v : gmap positive Interval) (s : State) : State :=
  Build_State (chat s) (messages s) (input s) (isLoading s) (error s)
    (currentModel s) (isDeepSearch s) (attachedFile s)
    (welcomeAnimationIntervalRef s) v (nextInterval s) (sessions s)
    (requests s) (pending s).
Definition setNextInterval (v : positive) (s : State) : State :=
  Build_State (chat s) (messages s) (input s) (isLoading s) (error s)
    (currentModel s) (isDeepSearch s) (attachedFile s)
    (welcomeAnimationIntervalRef s) (intervals s) v (sessions s) (requests s)
    (pending s).
Definition setSessions (v : list Chat) (s : State) : State :=
  Build_State (chat s) (messages s) (input s) (isLoading s) (error s)
    (currentModel s) (isDeepSearch s) (attachedFile s)
    (welcomeAnimationIntervalRef s) (intervals s) (nextInterval s) v
    (requests s) (pending s).
Definition setRequests (v : list GenerateContentParameters) (s : State) : State :=
  Build_State (chat s) (messages s) (input s) (isLoading s) (error s)
    (currentModel s) (isDeepSearch s) (attachedFile s)
    (welcomeAnimationIntervalRef s) (intervals s) (nextInterval s)
    (sessions s) v (pending s).
Definition setPending (v : option Pending) (s : State) : State :=
  Build_State (chat s) (messages s) (input s) (isLoading s) (error s)
    (currentModel s) (isDeepSearch s) (attachedFile s)
    (welcomeAnimationIntervalRef s) (intervals s) (nextInterval s)
    (sessions s) (requests s) v.

Notation "s |> f" := (f s) (at level 45, left associativity, only parsing).

#[global] Instance AiModelKeys_eq_dec : EqDecision AiModelKeys.
Proof. solve_decision. Defined.

(** [useState] initial values, before the first effect has run. *)
Definition initialState : State :=
  {| chat := None; messages := []; input := []; isLoading := false;
     error := None; currentModel := ecoiuris; isDeepSearch := false;
     attachedFile := None; welcomeAnimationIntervalRef := None;
     intervals := ∅; nextInterval := 1%positive; sessions := [];
     requests := []; pending := None |}.

(** ** Array helpers *)

(** [newMessages[newMessages.length - 1] = m] on a copy of [prev].  On an
    empty array the index is -1, which names no element: the copy stays
    empty for [length], [map] and spreading. *)
Definition replaceLast (m : Message) (prev : list Message) : list Message :=
  match prev with
  | [] => []
  | _ :: _ => <[length prev - 1 := m]> prev
  end.

(** [prev.slice(0, -1)]. *)
Definition dropLast (prev : list Message) : list Message := removelast prev.

(** [fullWelcomeMessageText[i]] appended to a string: one code unit, or
    the text of [undefined] out of range. *)
Definition charAt (s : jstring) (i : nat) : jstring :=
  match s !! i with
  | Some c => [c]
  | None => js "undefined"
  end.

(** ** The welcome animation, App.tsx:80-100 *)

Definition clearInterval (id : positive) (s : State) : State :=
  s |> setIntervals (delete id (intervals s)).

(** [if (welcomeAnimationIntervalRef.current) clearInterval(...)]. *)
Definition clearWelcomeInterval (s : State) : State :=
  match welcomeAnimationIntervalRef s with
  | Some id => clearInterval id s
  | None => s
  end.

(** [welcomeAnimationIntervalRef.current = setInterval(callback, 5)] with
    the callback's closure [c]. *)
Definition setWelcomeInterval (c : Interval) (s : State) : State :=
  let id := nextInterval s in
  s |> setIntervals (<[id := c]> (intervals s))
    |> setNextInterval (Pos.succ id)
    |> setWelcomeAnimationIntervalRef (Some id).

Definition animateWelcomeMessage (s : State) : State :=
  s |> clearWelcomeInterval
    |> setMessages [mkMsg model []]
    |> setWelcomeInterval {| animatedText := []; frame_i := 0 |}.

(** One run of the interval callback of timer [id] with closure [c]. *)
Definition intervalCallback (id : positive) (c : Interval) (s : State) : State :=
  if frame_i c <? length fullWelcomeMessageText then
    let animatedText' := animatedText c ++ charAt fullWelcomeMessageText (frame_i c) in
    s |> setIntervals
           (<[id := {| animatedText := animatedText'; frame_i := S (frame_i c) |}]>
              (intervals s))
      |> setMessages [mkMsg model (animatedText' ++ cursor)]
  else
    s |> clearWelcomeInterval
      |> setMessages [mkMsg model (animatedText c)].

(** ** The effect on [currentModel], App.tsx:102-117

    [thrown] is what [startChat] throws, if it does. *)
Definition effectCleanup (s : State) : State := clearWelcomeInterval s.

Definition effectCurrentModel (thrown : option Thrown) (s : State) : State :=
  match thrown with
  | None =>
      let newChat := startChat (instruction (AI_MODELS (currentModel s))) in
      s |> setSessions (sessions s ++ [newChat])
        |> setChat (Some (length (sessions s)))
        |> animateWelcomeMessage
  | Some e =>
      s |> setError
             (Some (js "Failed to initialize AI Chat: "
                    ++ errorMessage e (js "An unknown error occurred during initialization.")))
  end.

(** ** Sending, App.tsx:123-197 *)

(** [chat.sendMessageStream({ message })] on session [c]. *)
Definition sendMessageStream (c : nat) (message : list MessagePart) (s : State) : State :=
  s |> setSessions
         (match sessions s !! c with
          | Some ch =>
              <[c := {| chat_model := chat_model ch;
                        systemInstruction := systemInstruction ch;
                        sent := sent ch ++ [message] |}]> (sessions s)
          | None => sessions s
          end)
    |> setPending (Some AwaitStream).

(** The [finally] block of [handleSendMessage]. *)
Definition sendFinally (s : State) : State :=
  s |> setIsLoading false
    |> setAttachedFile None
    |> setIsDeepSearch false
    |> setPending None.

(** The [catch] block of [handleSendMessage]. *)
Definition sendCatch (err : Thrown) (s : State) : State :=
  s |> setError
         (Some (js "Error from AI: " ++ errorMessage err (js "An unknown error occurred.")))
    |> setMessages (dropLast (messages s)).

(** [handleStandardChat] up to its first [await]; [chat] and
    [attachedFile] are those of the render the handler closed over. *)
Definition handleStandardChat (chat : option nat) (attachedFile : option File)
    (currentInput : jstring) (s : State) : State :=
  match chat with
  | None => sendFinally s
  | Some c =>
      match attachedFile with
      | Some f => s |> setPending (Some (AwaitFilePart c currentInput f))
      | None => sendMessageStream c [PartString currentInput] s
      end
  end.

(** [handleDeepSearch] up to its [await]. *)
Definition handleDeepSearch (currentInput : jstring) (s : State) : State :=
  s |> setMessages (messages s ++ [mkMsg model (js "Performing deep search...")])
    |> setRequests
         (requests s ++
            [{| gc_model := js "gemini-2.5-flash";
                contents := currentInput;
                config := {| config_systemInstruction := None;
                             tools := [googleSearch] |} |}])
    |> setPending (Some AwaitGenerateContent).

Definition truthyWeb (w : option Web) : bool :=
  match w with
  | Some w' =>
      match web_uri w', web_title w' with
      | Some u, Some t => truthy u && truthy t
      | _, _ => false
      end
  | None => false
  end.

(** The narrowing [web is { uri: string; title: string }] of the filter's
    type guard. *)
Definition asCitation (w : option Web) : Citation :=
  {| uri := default [] (w ≫= web_uri); title := default [] (w ≫= web_title) |}.

(** [chunks?.map(chunk => chunk.web).filter(...) ?? []]. *)
Definition extractCitations (chunks : option (list GroundingChunk)) : list Citation :=
  match chunks with
  | Some cs => map asCitation (List.filter truthyWeb (map web cs))
  | None => []
  end.

(** The user entry's text,
    [`${currentInput}${attachedFile ? `\n\n[File Attached: ${attachedFile.name}]` : ''}`]. *)
Definition userText (currentInput : jstring) (attachedFile : option File) : jstring :=
  currentInput ++
  match attachedFile with
  | Some f => nl ++ nl ++ js "[File Attached: " ++ file_name f ++ js "]"
  | None => []
  end.

(** The guard of [handleSendMessage],
    [!input.trim() && !attachedFile || isLoading || !chat]. *)
Definition sendBlocked (s : State) : bool :=
  negb (truthy (trim (input s))) && negb (bool_decide (is_Some (attachedFile s)))
  || isLoading s
  || negb (bool_decide (is_Some (chat s))).

Definition handleSendMessage (s : State) : State :=
  if sendBlocked s then s
  else
    let currentInput := input s in
    let s1 :=
      s |> setInput []
        |> setMessages (messages s ++ [mkMsg user (userText currentInput (attachedFile s))])
        |> setIsLoading true
        |> setError None in
    if isDeepSearch s then handleDeepSearch currentInput s1
    else handleStandardChat (chat s) (attachedFile s) currentInput s1.

(** [s += v] for a value that is a string or undefined: the string itself,
    or the text of [undefined]. *)
Definition stringOf (v : option jstring) : jstring :=
  match v with
  | Some t => t
  | None => js "undefined"
  end.

(** ** Events

    What the event loop delivers to the component: user actions on the
    controls, timer callbacks, and the settling of the promise the send
    handler awaits. *)
Inductive Event :=
  | ModelChange (modelKey : AiModelKeys) (thrown : option Thrown)
      (* Header's onModelChange; [thrown]: what startChat throws in the effect *)
  | IntervalFires (id : positive)
  | InputChange (value : jstring)
  | FileChange (file : option File)
  | RemoveFile
  | FormatAsCode
  | ToggleDeepSearch
  | Submit
  | FilePartResolves (data : jstring)
  | StreamResolves
  | StreamChunk (chunkText : option jstring)
      (* [chunk.text] of the chunk the stream yields: a string, or undefined
         for a chunk without text *)
  | StreamEnds
  | GenerateContentResolves (response : GenerateContentResponse)
  | Rejects (err : Thrown).
      (* the awaited promise rejects, or the stream iteration throws *)

(** The continuation of the suspended handler when its promise resolves
    with the given event; events that do not match the suspension point do
    not occur. *)
Definition resume (p : Pending) (e : Event) (s : State) : State :=
  match p, e with
  | AwaitFilePart c currentInput f, FilePartResolves data =>
      let filePart := PartInlineData data (file_type f) in
      sendMessageStream c [filePart; PartString currentInput] s
  | AwaitStream, StreamResolves =>
      s |> setMessages (messages s ++ [mkMsg model (js "...")])
        |> setPending (Some (InStream []))
  | InStream modelResponse, StreamChunk chunkText =>
      let modelResponse' := modelResponse ++ stringOf chunkText in
      s |> setMessages (replaceLast (mkMsg model modelResponse') (messages s))
        |> setPending (Some (InStream modelResponse'))
  | InStream _, StreamEnds => sendFinally s
  | AwaitGenerateContent, GenerateContentResolves response =>
      let text := response_text response in
      let citations := extractCitations (groundingChunks response) in
      s |> setMessages
             (replaceLast {| role := model; text := text; citations := Some citations |}
                (messages s))
        |> sendFinally
  | _, Rejects err => s |> sendCatch err |> sendFinally
  | _, _ => s
  end.

Definition step (s : State) (e : Event) : State :=
  match e with
  | ModelChange modelKey thrown =>
      if decide (modelKey = currentModel s) then s
      else s |> setCurrentModel modelKey |> effectCleanup |> effectCurrentModel thrown
  | IntervalFires id =>
      match intervals s !! id with
      | Some c => intervalCallback id c s
      | None => s
      end
  | InputChange value =>
      if isLoading s || negb (bool_decide (is_Some (chat s))) then s
      else s |> setInput value
  | FileChange file => s |> setAttachedFile file
  | RemoveFile => s |> setAttachedFile None
  | FormatAsCode =>
      if isLoading s then s
      else s |> setInput (js "```" ++ nl ++ input s ++ nl ++ js "```")
  | ToggleDeepSearch =>
      if isLoading s then s
      else s |> setIsDeepSearch (negb (isDeepSearch s))
  | Submit => handleSendMessage s
  | _ =>
      match pending s with
      | Some p => resume p e s
      | None => s
      end
  end.

(** The first render followed by its effect. *)
Definition mount (thrown : option Thrown) : State :=
  effectCurrentModel thrown initialState.

Definition run (s : State) (es : list Event) : State := fold_left step es s.

Inductive reachable : State -> Prop :=
  | reachable_mount thrown : reachable (mount thrown)
  | reachable_step s e : reachable s -> reachable (step s e).

(** ** Export, App.tsx:199-211

    The browser's HTML parser is a parameter: [textContent html] and
    [innerText html] are those properties of a detached [div] whose
    [innerHTML] was set to [html]. *)
Section Download.
Variables textContent innerText : jstring -> jstring.

(** [a || b] on strings. *)
Definition orElse (a b : jstring) : jstring := if truthy a then a else b.

Definition plainText (html : jstring) : jstring :=
  orElse (textContent html) (orElse (innerText html) []).

Definition exportEntry (msg : Message) : jstring :=
  let prefix := match role msg with user => js "> User:" | model => js "< AI:" end in
  let citationsText :=
    match citations msg with
    | Some cs =>
        if 0 <? length cs then
          nl ++ nl ++ js "Sources:" ++ nl ++
          join nl (imap (fun i c => js "[" ++ Number_toString (i + 1) ++ js "] "
                                    ++ title c ++ js ": " ++ uri c) cs)
        else []
    | None => []
    end in
  prefix ++ nl ++ plainText (text msg) ++ citationsText.

(** The text [handleDownloadChat] puts into the blob. *)
Definition handleDownloadChat (messages : list Message) : jstring :=
  join (nl ++ nl ++ js "---" ++ nl ++ nl) (map exportEntry messages).
End Download.

(** ** Reading the attachment, App.tsx:54-63

    [String.prototype.split] with a separator of one code unit. *)
Fixpoint split (sep : N) (s : jstring) : list jstring :=
  match s with
  | [] => [[]]
  | c :: s' =>
      if (c =? sep)%N then [] :: split sep s'
      else match split sep s' with
           | piece :: pieces => (c :: piece) :: pieces
           | [] => [[c]]
           end
  end.




(** ** Rendering an entry, App.tsx:222-256

    [text.endsWith(suffix)]. *)
Definition endsWith (text suffix : jstring) : bool :=
  bool_decide (drop (length text - length suffix) text = suffix)
  && (length suffix <=? length text).

(** What [renderMessage] puts on the page: for a user entry the text as
    it is; for a model entry the text handed to [marked.parse], whether
    the pulsing typing indicator is shown, and the numbered source list
    when there is one. *)
Inductive Rendered :=
  | UserBubble (text : jstring)
  | ModelBlock (markedInput : jstring) (typingIndicator : bool)
      (sourceList : option (list Citation)).

Definition renderMessage (isLoading : bool) (messages : list Message)
    (message : Message) (index : nat) : Rendered :=
  match role message with
  | user => UserBubble (text message)
  | model =>
      let isTyping :=
        isLoading
        && (Z.of_nat index =? Z.of_nat (length messages) - 1)%Z
        && bool_decide (text message = js "...")
        || endsWith (text message) cursor in
      ModelBlock
        (if endsWith (text message) cursor then removelast (text message)
         else text message)
        (isTyping && negb (endsWith (text message) cursor))
        (match citations message with
         | Some cs => if 0 <? length cs then Some cs else None
         | None => None
         end)
  end.

(** [messages.map(renderMessage)]. *)
Definition renderMessages (s : State) : list Rendered :=
  imap (fun index message => renderMessage (isLoading s) (messages s) message index)
    (messages s).

(** ** The [disabled] attributes of the form and the header's label,
    App.tsx:305-310 and the Header component *)

(** [disabled={isLoading || (!input.trim() && !attachedFile) || !chat}]
    of the send button. *)
Definition submitDisabled (s : State) : bool :=
  isLoading s
  || negb (truthy (trim (input s))) && negb (bool_decide (is_Some (attachedFile s)))
  || negb (bool_decide (is_Some (chat s))).

(** [disabled={isLoading || !chat}] of the text input. *)
Definition inputDisabled (s : State) : bool :=
  isLoading s || negb (bool_decide (is_Some (chat s))).

(** [models[currentModel].name], the label of the header's dropdown. *)
Definition headerLabel (s : State) : jstring := name (AI_MODELS (currentModel s)).

(** * Vocabulary of the properties *)

(** ** Timers *)

Definition timerView (s : State) :=
  (intervals s, welcomeAnimationIntervalRef s, nextInterval s).

(** In a reachable state every live timer is the one the ref names, and
    its closure holds the first [i] code units of the banner. *)
Definition timerInv (s : State) : Prop :=
  forall id c, intervals s !! id = Some c ->
    welcomeAnimationIntervalRef s = Some id
    /\ animatedText c = take (frame_i c) fullWelcomeMessageText
    /\ frame_i c <= length fullWelcomeMessageText
    /\ (id < nextInterval s)%positive.

(** A text that [b] extends by at least one code unit. *)
Definition properPrefix (p b : jstring) : Prop := exists q, q <> [] /\ b = p ++ q.

(** ** Sends *)

(** The events of a standard-chat send up to the open stream. *)
Definition openStream (s : State) (data : jstring) : list Event :=
  match attachedFile s with
  | Some _ => [Submit; FilePartResolves data; StreamResolves]
  | None => [Submit; StreamResolves]
  end.

(** The events of a standard-chat send that follow its dispatch, up to the
    open stream. *)
Definition streamOpening (s : State) (data : jstring) : list Event :=
  match attachedFile s with
  | Some _ => [FilePartResolves data; StreamResolves]
  | None => [StreamResolves]
  end.

(** The events of the stream's chunks, each carrying its text. *)
Definition chunkEvents (texts : list jstring) : list Event :=
  map (fun t => StreamChunk (Some t)) texts.

(** What the user does with the form's controls. *)
Definition formControl (e : Event) : bool :=
  match e with
  | InputChange _ | FileChange _ | RemoveFile | FormatAsCode
  | ToggleDeepSearch | Submit => true
  | _ => false
  end.

(** What the send handler is resumed with. *)
Definition handlerEvent (e : Event) : bool :=
  match e with
  | FilePartResolves _ | StreamResolves | StreamChunk _ | StreamEnds
  | GenerateContentResolves _ | Rejects _ => true
  | _ => false
  end.

(** The handler events that leave the handler suspended. *)
Definition streamingEvent (e : Event) : bool :=
  match e with
  | FilePartResolves _ | StreamResolves | StreamChunk _ => true
  | _ => false
  end.

(** The events [own] in their order, the [i]-th of them preceded by the
    [i]-th list of [others] (by nothing when [others] is shorter). *)
Fixpoint weave (own : list Event) (others : list (list Event)) : list Event :=
  match own with
  | [] => []
  | e :: own' =>
      match others with
      | [] => e :: weave own' []
      | o :: others' => o ++ e :: weave own' others'
      end
  end.

(** What a send reads and writes of the state. *)
Definition sendView (s : State) := (messages s, pending s, isLoading s).

(** A run that stays within one send cycle: no event comes after the one
    that ends it. *)
Definition withinCycle (s : State) (es : list Event) : Prop :=
  forall es1 es2, es = es1 ++ es2 -> es2 <> [] -> is_Some (pending (run s es1)).

(** Every message sent through a chat session so far. *)
Definition transmitted (s : State) : list (list MessagePart) :=
  concat (map sent (sessions s)).

(** The one-shot request of a deep search for the text [currentInput]. *)
Definition groundedRequest (currentInput : jstring) : GenerateContentParameters :=
  {| gc_model := js "gemini-2.5-flash";
     contents := currentInput;
     config := {| config_systemInstruction := None; tools := [googleSearch] |} |}.

(** The send handler is suspended at [generateContent]. *)
Definition awaitingGrounded (s : State) : Prop :=
  pending s = Some AwaitGenerateContent /\ isLoading s = true.

(** ** Citations *)

(** A grounding entry yields the citation [c]: its [web] is present, with
    [uri] and [title] present and non-empty. *)
Definition citable (g : GroundingChunk) (c : Citation) : Prop :=
  exists w, web g = Some w
    /\ web_uri w = Some (uri c) /\ web_title w = Some (title c)
    /\ uri c <> [] /\ title c <> [].

(** [cs] is the subsequence of citable entries of [gs], in order. *)
Inductive Cited : list GroundingChunk -> list Citation -> Prop :=
  | Cited_nil : Cited [] []
  | Cited_keep g c gs cs : citable g c -> Cited gs cs -> Cited (g :: gs) (c :: cs)
  | Cited_drop g gs cs : (forall c, ~ citable g c) -> Cited gs cs -> Cited (g :: gs) cs.

(** ** The export, as the specification words it *)

(** Entry by entry, the sources numbered from 1; [plain] is what stands
    for an entry's text. *)
Definition separator : jstring := nl ++ nl ++ js "---" ++ nl ++ nl.












(** ** Sample inputs *)

Definition exampleResponse : GenerateContentResponse :=
  {| response_text := js "answer";
     groundingChunks :=
       Some [ {| web := None |};
              {| web := Some {| web_uri := Some (js "https://a.example"); web_title := Some (js "A") |} |};
              {| web := Some {| web_uri := Some []; web_title := Some (js "B") |} |};
              {| web := Some {| web_uri := Some (js "https://c.example"); web_title := None |} |};
              {| web := Some {| web_uri := Some (js "https://d.example"); web_title := Some (js "D") |} |} ] |}.

Definition examplePdf : File :=
  {| file_name := js "contract.pdf"; file_type := js "application/pdf" |}.

(** ** Further vocabulary *)

(** An entry's citations are well-formed: only model entries carry any,
    and each has a non-empty [uri] and [title]. *)
Definition wellCited (m : Message) : Prop :=
  match citations m with
  | Some cs => role m = model /\ Forall (fun c => uri c <> [] /\ title c <> []) cs
  | None => True
  end.

(** A session as [startChat] creates them for a persona. *)
Definition personaSession (ch : Chat) : Prop :=
  chat_model ch = js "gemini-2.5-flash"
  /\ exists k, systemInstruction ch = instruction (AI_MODELS k).

(** The session [ch] after [message] has been sent through it. *)
Definition withSent (ch : Chat) (message : list MessagePart) : Chat :=
  {| chat_model := chat_model ch;
     systemInstruction := systemInstruction ch;
     sent := sent ch ++ [message] |}.

(** The in-flight flag and the suspended handler agree. *)
Definition loadingInv (s : State) : Prop :=
  (isLoading s = true /\ is_Some (pending s))
  \/ (isLoading s = false /\ pending s = None).

(** The active session is the last one created, and every session is a
    persona's. *)
Definition sessionInv (s : State) : Prop :=
  Forall personaSession (sessions s)
  /\ forall c, chat s = Some c -> S c = length (sessions s).


(** * Properties *)

Arguments js : simpl never.
#[local] Opaque fullWelcomeMessageText.

(** ** The model on sample inputs *)

Example fullWelcomeMessageText_length : length fullWelcomeMessageText = 644.
Proof. vm_compute. reflexivity. Qed.

Example trim_example : trim (js "  a b  ") = js "a b".
Proof. reflexivity. Qed.

Example extractCitations_example :
  extractCitations (groundingChunks exampleResponse)
  = [ {| uri := js "https://a.example"; title := js "A" |};
      {| uri := js "https://d.example"; title := js "D" |} ].
Proof. reflexivity. Qed.

Example handleDownloadChat_example :
  handleDownloadChat (fun html => html) (fun html => html)
    [ mkMsg user (js "hi");
      {| role := model; text := js "x";
         citations := Some [ {| uri := js "u1"; title := js "t1" |};
                             {| uri := js "u2"; title := js "t2" |} ] |} ]
  = js "> User:" ++ nl ++ js "hi" ++ nl ++ nl ++ js "---" ++ nl ++ nl
    ++ js "< AI:" ++ nl ++ js "x" ++ nl ++ nl ++ js "Sources:" ++ nl
    ++ js "[1] t1: u1" ++ nl ++ js "[2] t2: u2".
Proof. reflexivity. Qed.

Example deep_search_send_example :
  messages (run (mount None)
              [InputChange (js "hi"); ToggleDeepSearch; Submit;
               Rejects (ErrorObject (js "boom"))])
  = [mkMsg model []; mkMsg user (js "hi")].
Proof. vm_compute. reflexivity. Qed.

(** ** Arrays and strings *)

Lemma replaceLast_snoc (m x : Message) (l : list Message) :
  replaceLast m (l ++ [x]) = l ++ [m].
Proof.
  unfold replaceLast. destruct (l ++ [x]) eqn:E.
  - destruct l; discriminate.
  - rewrite <- E, length_app. simpl.
    replace (length l + 1 - 1) with (length l + 0) by lia.
    by rewrite insert_app_r.
Qed.

Lemma dropLast_snoc (x : Message) (l : list Message) : dropLast (l ++ [x]) = l.
Proof. apply removelast_last. Qed.

Lemma trimStart_nil_iff (s : jstring) : trimStart s = [] <-> forallb is_ws s = true.
Proof.
  induction s as [|c s IH]; simpl; [done|].
  destruct (is_ws c); simpl; [done|]. split; discriminate.
Qed.

Lemma forallb_is_ws_rev (s : jstring) : forallb is_ws (rev s) = forallb is_ws s.
Proof.
  induction s as [|c s IH]; simpl; [done|].
  rewrite forallb_app, IH. simpl. rewrite andb_true_r. apply andb_comm.
Qed.

Lemma trimStart_suffix_ws (s : jstring) :
  forallb is_ws s = false -> forallb is_ws (trimStart s) = false.
Proof.
  induction s as [|c s IH]; simpl; [done|].
  destruct (is_ws c) eqn:E; simpl; [done|]. by rewrite E.
Qed.

(** [!input.trim()] holds exactly for the texts made of white space only. *)
Lemma trim_falsy_iff (s : jstring) :
  truthy (trim s) = false <-> forallb is_ws s = true.
Proof.
  unfold trim. split.
  - intros H. destruct (forallb is_ws s) eqn:E; [done|].
    apply trimStart_suffix_ws in E. rewrite <- forallb_is_ws_rev in E.
    apply trimStart_suffix_ws in E. rewrite <- forallb_is_ws_rev in E.
    destruct (rev _); [discriminate E | discriminate H].
  - intros H. apply trimStart_nil_iff in H. by rewrite H.
Qed.

(** ** Timers

    Neither sending nor the controls touch the timers: only a persona
    change and the interval callback do. *)

Ltac unfold_handlers :=
  unfold step, resume, handleSendMessage, handleStandardChat, handleDeepSearch,
    sendMessageStream, sendCatch, sendFinally in *.

Ltac unfold_effects :=
  unfold effectCurrentModel, effectCleanup, animateWelcomeMessage, intervalCallback,
    setWelcomeInterval, clearWelcomeInterval, clearInterval in *.

Lemma timerView_step (s : State) (e : Event) :
  (forall k t, e <> ModelChange k t) -> (forall id, e <> IntervalFires id) ->
  timerView (step s e) = timerView s.
Proof.
  intros Hm Hi.
  destruct e; try (by exfalso; eapply Hm); try (by exfalso; eapply Hi);
    unfold_handlers; try done; repeat (case_match; simpl; try done).
Qed.

Lemma clearWelcomeInterval_empty (s : State) :
  timerInv s -> intervals (clearWelcomeInterval s) = ∅.
Proof.
  intros Inv. apply map_eq. intros id. rewrite lookup_empty.
  destruct (intervals (clearWelcomeInterval s) !! id) as [c|] eqn:E; [|done].
  unfold clearWelcomeInterval in E.
  destruct (welcomeAnimationIntervalRef s) as [r|] eqn:Er; simpl in E.
  - destruct (decide (r = id)) as [->|Hne].
    + by rewrite lookup_delete_eq in E.
    + rewrite lookup_delete_ne in E by done.
      destruct (Inv _ _ E) as [Hr _]. congruence.
  - destruct (Inv _ _ E) as [Hr _]. congruence.
Qed.

Lemma clearWelcomeInterval_view (s : State) :
  welcomeAnimationIntervalRef (clearWelcomeInterval s) = welcomeAnimationIntervalRef s
  /\ nextInterval (clearWelcomeInterval s) = nextInterval s.
Proof. unfold clearWelcomeInterval. by case_match. Qed.

Lemma take_charAt (s : jstring) (i : nat) :
  i < length s -> take i s ++ charAt s i = take (S i) s.
Proof.
  intros H. unfold charAt. destruct (lookup_lt_is_Some_2 s i H) as [c Hc].
  rewrite Hc. symmetry. by apply take_S_r.
Qed.

Lemma timerInv_animate (s : State) : timerInv s -> timerInv (animateWelcomeMessage s).
Proof.
  intros Inv id c. unfold animateWelcomeMessage, setWelcomeInterval. simpl.
  rewrite (clearWelcomeInterval_empty s Inv).
  destruct (clearWelcomeInterval_view s) as [_ ->].
  intros H. apply lookup_insert_Some in H as [[<- <-]|[_ H]]; [|done].
  simpl. repeat split; [lia | lia].
Qed.

Lemma timerInv_callback (s : State) (id : positive) (c : Interval) :
  timerInv s -> intervals s !! id = Some c -> timerInv (intervalCallback id c s).
Proof.
  intros Inv Hc. destruct (Inv _ _ Hc) as (Hr & Ht & Hle & Hlt).
  unfold intervalCallback. case_match eqn:Hlen.
  - apply Nat.ltb_lt in Hlen. intros id' c'. simpl. intros H.
    apply lookup_insert_Some in H as [[<- <-]|[_ H]]; [|by apply Inv].
    simpl. rewrite Ht, take_charAt by done. repeat split; [done | lia | done].
  - intros id' c'. simpl. by rewrite (clearWelcomeInterval_empty s Inv).
Qed.

Lemma timerInv_of_view (s s' : State) :
  timerView s' = timerView s -> timerInv s -> timerInv s'.
Proof.
  unfold timerView, timerInv. intros [= Hi Hr Hn] Inv id c. rewrite Hi, Hr, Hn.
  apply Inv.
Qed.

Lemma timerInv_effect (s : State) (thrown : option Thrown) :
  timerInv s -> timerInv (effectCurrentModel thrown s).
Proof.
  intros Inv. destruct thrown as [e|]; simpl.
  - by apply (timerInv_of_view s).
  - apply timerInv_animate. by apply (timerInv_of_view s).
Qed.

Lemma timerInv_cleanup (s : State) : timerInv s -> timerInv (effectCleanup s).
Proof.
  intros Inv id c. unfold effectCleanup. by rewrite (clearWelcomeInterval_empty s Inv).
Qed.

Lemma timerInv_step (s : State) (e : Event) : timerInv s -> timerInv (step s e).
Proof.
  intros Inv.
  destruct e as [k t|id| | | | | | | | | | | |];
    try (apply (timerInv_of_view s); [by apply timerView_step|done]).
  - simpl. case_decide; [done|].
    apply timerInv_effect, timerInv_cleanup. by apply (timerInv_of_view s).
  - simpl. destruct (intervals s !! id) eqn:E; [|done]. by apply timerInv_callback.
Qed.

Lemma timerInv_reachable (s : State) : reachable s -> timerInv s.
Proof.
  induction 1 as [thrown|s e _ IH].
  - apply timerInv_effect. intros id c. simpl. by rewrite lookup_empty.
  - by apply timerInv_step.
Qed.

(** ** One send, followed without interleaving *)

Lemma sendBlocked_false (s : State) :
  sendBlocked s = false ->
  isLoading s = false
  /\ (exists c, chat s = Some c)
  /\ (forallb is_ws (input s) = false \/ exists f, attachedFile s = Some f).
Proof.
  unfold sendBlocked. intros H.
  apply orb_false_elim in H as [H Hc]. apply orb_false_elim in H as [Hi Hl].
  split; [done|]. split.
  - destruct (chat s); [eauto|]. simpl in Hc. discriminate.
  - destruct (attachedFile s); [eauto|]. left.
    destruct (forallb is_ws (input s)) eqn:E; [|done].
    apply trim_falsy_iff in E. rewrite E in Hi. discriminate.
Qed.

(** The entries a dispatched send appends before its first [await], and
    where the handler is suspended. *)
Lemma submit_standard (s : State) :
  sendBlocked s = false -> isDeepSearch s = false ->
  messages (step s Submit)
    = messages s ++ [mkMsg user (userText (input s) (attachedFile s))]
  /\ exists c, chat s = Some c
     /\ pending (step s Submit)
        = Some (match attachedFile s with
                | Some f => AwaitFilePart c (input s) f
                | None => AwaitStream
                end).
Proof.
  intros Hb Hd. destruct (sendBlocked_false s Hb) as (_ & [c Hc] & _).
  simpl. unfold handleSendMessage. rewrite Hb, Hd, Hc. simpl.
  destruct (attachedFile s); simpl; eauto.
Qed.

Lemma submit_deep (s : State) :
  sendBlocked s = false -> isDeepSearch s = true ->
  messages (step s Submit)
    = messages s ++ [mkMsg user (userText (input s) (attachedFile s));
                     mkMsg model (js "Performing deep search...")]
  /\ pending (step s Submit) = Some AwaitGenerateContent.
Proof.
  intros Hb Hd. simpl. unfold handleSendMessage. rewrite Hb, Hd. simpl.
  by rewrite <- app_assoc.
Qed.

(** The failure paths, one by one.  A standard-chat send that fails before
    its stream is open (the file conversion or [sendMessageStream]
    rejects) has not appended its placeholder yet: the [catch] block drops
    the user's entry. *)
Lemma failure_before_stream (s : State) (err : Thrown) :
  sendBlocked s = false -> isDeepSearch s = false ->
  messages (run s [Submit; Rejects err]) = messages s.
Proof.
  intros Hb Hd. destruct (submit_standard s Hb Hd) as (Hm & c & _ & Hp).
  simpl in *. rewrite Hp.
  destruct (attachedFile s); simpl; rewrite Hm; apply dropLast_snoc.
Qed.

Lemma failure_opening_stream_with_file (s : State) (data : jstring) (err : Thrown) :
  sendBlocked s = false -> isDeepSearch s = false -> is_Some (attachedFile s) ->
  messages (run s [Submit; FilePartResolves data; Rejects err]) = messages s.
Proof.
  intros Hb Hd [f Hf]. destruct (submit_standard s Hb Hd) as (Hm & c & _ & Hp).
  simpl in *. rewrite Hp, Hf. simpl. rewrite Hm. apply dropLast_snoc.
Qed.

(** A deep-search send that fails drops its placeholder and keeps the
    user's entry. *)
Lemma failure_deep_search (s : State) (err : Thrown) :
  sendBlocked s = false -> isDeepSearch s = true ->
  messages (run s [Submit; Rejects err])
    = messages s ++ [mkMsg user (userText (input s) (attachedFile s))].
Proof.
  intros Hb Hd. destruct (submit_deep s Hb Hd) as (Hm & Hp).
  simpl in *. rewrite Hp. simpl. rewrite Hm.
  change [?a; ?b] with ([a] ++ [b]). rewrite app_assoc. apply dropLast_snoc.
Qed.

Lemma run_app (s : State) (es1 es2 : list Event) :
  run s (es1 ++ es2) = run (run s es1) es2.
Proof. apply fold_left_app. Qed.

Lemma run_openStream (s : State) (data : jstring) :
  sendBlocked s = false -> isDeepSearch s = false ->
  messages (run s (openStream s data))
    = messages s ++ [mkMsg user (userText (input s) (attachedFile s));
                     mkMsg model (js "...")]
  /\ pending (run s (openStream s data)) = Some (InStream []).
Proof.
  intros Hb Hd. destruct (submit_standard s Hb Hd) as (Hm & c & _ & Hp).
  unfold openStream. simpl in *.
  destruct (attachedFile s); simpl; rewrite Hp; simpl; rewrite Hm;
    by rewrite <- app_assoc.
Qed.

(** Chunks accumulate in arrival order into the last entry. *)
Lemma run_chunks (s : State) (r : jstring) (base : list Message) (m : Message)
    (chunks : list (option jstring)) :
  pending s = Some (InStream r) -> messages s = base ++ [m] -> chunks <> [] ->
  messages (run s (map StreamChunk chunks))
    = base ++ [mkMsg model (r ++ concat (map stringOf chunks))]
  /\ pending (run s (map StreamChunk chunks))
    = Some (InStream (r ++ concat (map stringOf chunks))).
Proof.
  revert s r m. induction chunks as [|c chunks IH]; intros s r m Hp Hm Hne; [done|].
  simpl. rewrite Hp. simpl.
  destruct chunks as [|c' chunks].
  - simpl. rewrite Hm, replaceLast_snoc, app_nil_r. done.
  - rewrite app_assoc.
    apply (IH _ _ (mkMsg model (r ++ stringOf c))); [done| |done].
    simpl. by rewrite Hm, replaceLast_snoc.
Qed.

Lemma failure_in_stream (s : State) (data : jstring)
    (chunks : list (option jstring)) (err : Thrown) :
  sendBlocked s = false -> isDeepSearch s = false ->
  messages (run s (openStream s data ++ map StreamChunk chunks ++ [Rejects err]))
    = messages s ++ [mkMsg user (userText (input s) (attachedFile s))].
Proof.
  intros Hb Hd. destruct (run_openStream s data Hb Hd) as (Hm & Hp).
  rewrite !run_app.
  set (s1 := run s (openStream s data)) in *.
  change [?a; ?b] with ([a] ++ [b]) in Hm. rewrite app_assoc in Hm.
  destruct chunks as [|c chunks].
  - simpl. rewrite Hp. simpl. rewrite Hm. apply dropLast_snoc.
  - destruct (run_chunks s1 [] _ _ (c :: chunks) Hp Hm) as (Hm' & Hp'); [done|].
    set (s2 := run s1 _) in *. simpl. rewrite Hp'. simpl. rewrite Hm'.
    apply dropLast_snoc.
Qed.

(** ** C1: rollback after a failed send *)

(** C1 (the code departs from the claim).  A standard-chat send of "hi"
    whose [sendMessageStream] call rejects: when the [catch] block runs,
    the placeholder has not been appended yet, so [prev.slice(0, -1)]
    removes the user's entry.  The transcript is back to what it was
    before the send, one entry shorter than the claim promises, and the
    user's message is gone. *)
Theorem C1_rejected_stream_call_retracts_user_entry :
  let s := run (mount None) [InputChange (js "hi")] in
  let dispatched := step s Submit in
  let failed := step dispatched (Rejects (ErrorObject (js "boom"))) in
  messages s = [mkMsg model []]
  /\ messages dispatched = [mkMsg model []; mkMsg user (js "hi")]
  /\ pending dispatched = Some AwaitStream
  /\ messages failed = [mkMsg model []]
  /\ error failed = Some (js "Error from AI: boom")
  /\ isLoading failed = false.
Proof. vm_compute. by repeat split. Qed.

(** ** C3: streaming accumulates the chunks *)

Lemma weave_nil (own : list Event) : weave own [] = own.
Proof. induction own as [|e own IH]; [done|]. simpl. by rewrite IH. Qed.

Lemma weave_app (own1 own2 : list Event) (others : list (list Event)) :
  weave (own1 ++ own2) others
  = weave own1 others ++ weave own2 (drop (length own1) others).
Proof.
  revert others. induction own1 as [|e own1 IH]; intros others; [done|].
  destruct others as [|o others]; simpl.
  - by rewrite IH, drop_nil.
  - by rewrite IH, <- app_assoc.
Qed.

(** While a send is in flight the form's controls leave the transcript and
    the suspended handler alone. *)
Lemma sendView_formControl (s : State) (e : Event) :
  isLoading s = true -> formControl e = true -> sendView (step s e) = sendView s.
Proof.
  intros Hl He. unfold sendView.
  destruct e; try discriminate He; simpl;
    unfold handleSendMessage, sendBlocked; rewrite ?Hl, ?orb_true_r; simpl;
    by rewrite ?Hl.
Qed.

Lemma sendView_formControls (s : State) (es : list Event) :
  isLoading s = true -> Forall (fun e => formControl e = true) es ->
  sendView (run s es) = sendView s.
Proof.
  revert s. induction es as [|e es IH]; intros s Hl Hes; [done|].
  inversion Hes as [|? ? He Hes']; subst. simpl.
  pose proof (sendView_formControl s e Hl He) as Hv.
  rewrite IH; [done| |done]. unfold sendView in Hv. congruence.
Qed.

(** What the handler does when resumed depends on the transcript and on
    where it is suspended only. *)
Lemma sendView_handlerEvent (s s' : State) (e : Event) :
  sendView s = sendView s' -> handlerEvent e = true ->
  sendView (step s e) = sendView (step s' e).
Proof.
  unfold sendView. intros [= Hm Hp Hl] He.
  destruct e; try discriminate He; simpl; rewrite Hp;
    destruct (pending s') as [[]|] eqn:Hp'; simpl; rewrite ?Hm, ?Hl, ?Hp, ?Hp'; done.
Qed.

Lemma isLoading_streamingEvent (s : State) (e : Event) :
  streamingEvent e = true -> isLoading (step s e) = isLoading s.
Proof.
  intros He. destruct e; try discriminate He; simpl;
    by destruct (pending s) as [[]|].
Qed.

Lemma streamingEvent_handlerEvent (e : Event) :
  streamingEvent e = true -> handlerEvent e = true.
Proof. by destruct e. Qed.

(** The controls woven into the events of a stream do not change what the
    send makes of the transcript. *)
Lemma sendView_weave (own : list Event) (others : list (list Event)) (s s' : State) :
  sendView s = sendView s' -> isLoading s = true ->
  Forall (fun e => streamingEvent e = true) own ->
  Forall (Forall (fun e => formControl e = true)) others ->
  sendView (run s (weave own others)) = sendView (run s' own)
  /\ isLoading (run s (weave own others)) = true.
Proof.
  revert others s s'. induction own as [|e own IH]; intros others s s' Hv Hl Hown Hoth.
  - done.
  - inversion Hown as [|? ? He Hown']; subst.
    assert (Hstep : forall s0, sendView s0 = sendView s' -> isLoading s0 = true ->
              sendView (step s0 e) = sendView (step s' e)
              /\ isLoading (step s0 e) = true).
    { intros s0 Hv0 Hl0. split.
      - by apply sendView_handlerEvent, streamingEvent_handlerEvent.
      - by rewrite isLoading_streamingEvent. }
    destruct others as [|o others]; simpl.
    + destruct (Hstep s Hv Hl) as [Hv1 Hl1]. by apply IH.
    + inversion Hoth as [|? ? Ho Hoth']; subst. rewrite run_app. simpl.
      pose proof (sendView_formControls s o Hl Ho) as Hvo.
      destruct (Hstep (run s o)) as [Hv1 Hl1].
      * congruence.
      * unfold sendView in Hvo. congruence.
      * by apply IH.
Qed.

(** C3, as stated, fails on three streams.  One that ends without a chunk:
    the placeholder is never replaced, and the final model entry reads
    "..." instead of the empty concatenation.  One during which a frame of
    the welcome animation fires: the frame replaces the transcript, reply
    included.  One with a chunk that has no text: the buffer receives the
    text of [undefined]. *)
Lemma C3_counterexample :
  let s := run (mount None) [InputChange (js "hi")] in
  let chunks : list (option jstring) := [] in
  let s' := run s (openStream s [] ++ map StreamChunk chunks ++ [StreamEnds]) in
  let framed := run s [Submit; StreamResolves; StreamChunk (Some (js "a"));
                       IntervalFires 1; StreamEnds] in
  let textless := run s [Submit; StreamResolves; StreamChunk None; StreamEnds] in
  sendBlocked s = false
  /\ pending s' = None
  /\ messages s' = messages s ++ [mkMsg user (js "hi"); mkMsg model (js "...")]
  /\ js "..." <> concat (map stringOf chunks)
  /\ pending framed = None
  /\ messages framed = [mkMsg model (take 1 fullWelcomeMessageText ++ cursor)]
  /\ pending textless = None
  /\ messages textless
     = messages s ++ [mkMsg user (js "hi"); mkMsg model (js "undefined")].
Proof. vm_compute. by repeat split. Qed.

(** C3 (amended).  A successful standard-chat send that receives at least
    one chunk, every chunk carrying a text, and during which no frame of
    the welcome animation fires and the persona is not switched, whatever
    the user does with the form's controls between the events of the
    stream: after the [k]-th chunk the last entry holds the concatenation
    of the first [k] chunk texts, and when the stream ends the model
    entry's text is the concatenation of all of them, in arrival order. *)
Theorem C3_stream_accumulates (s : State) (data : jstring) (texts : list jstring)
    (others : list (list Event)) :
  sendBlocked s = false -> isDeepSearch s = false -> texts <> [] ->
  Forall (Forall (fun e => formControl e = true)) others ->
  let base := messages s ++ [mkMsg user (userText (input s) (attachedFile s))] in
  let dispatched := step s Submit in
  (forall k, 0 < k <= length texts ->
     messages (run dispatched
                 (weave (streamOpening s data ++ chunkEvents (take k texts)) others))
       = base ++ [mkMsg model (concat (take k texts))])
  /\ messages (run dispatched
                 (weave (streamOpening s data ++ chunkEvents texts ++ [StreamEnds]) others))
       = base ++ [mkMsg model (concat texts)]
  /\ pending (run dispatched
                 (weave (streamOpening s data ++ chunkEvents texts ++ [StreamEnds]) others))
       = None.
Proof.
  intros Hb Hd Hne Hoth base dispatched.
  destruct (run_openStream s data Hb Hd) as (Hm & Hp).
  change [?a; ?b] with ([a] ++ [b]) in Hm. rewrite app_assoc in Hm. fold base in Hm.
  assert (Hopen : openStream s data = Submit :: streamOpening s data).
  { unfold openStream, streamOpening. by destruct (attachedFile s). }
  assert (Hl : isLoading dispatched = true).
  { subst dispatched. simpl. unfold handleSendMessage. rewrite Hb, Hd.
    destruct (sendBlocked_false s Hb) as (_ & [c Hc] & _). rewrite Hc.
    by destruct (attachedFile s). }
  assert (Hstr : forall ts,
            Forall (fun e => streamingEvent e = true) (streamOpening s data ++ chunkEvents ts)).
  { intros ts. apply Forall_app. split.
    - unfold streamOpening. destruct (attachedFile s); by repeat constructor.
    - unfold chunkEvents. by apply Forall_map, Forall_true. }
  assert (Hstring : forall ts : list jstring, map stringOf (map Some ts) = ts).
  { intros ts. induction ts as [|t ts IH]; [done|]. simpl. by rewrite IH. }
  assert (Hplain : forall ts, ts <> [] ->
            messages (run dispatched (streamOpening s data ++ chunkEvents ts))
              = base ++ [mkMsg model (concat ts)]
            /\ pending (run dispatched (streamOpening s data ++ chunkEvents ts))
              = Some (InStream (concat ts))).
  { intros ts Hts.
    change (run dispatched (streamOpening s data ++ chunkEvents ts))
      with (run s (Submit :: streamOpening s data ++ chunkEvents ts)).
    rewrite app_comm_cons, <- Hopen, run_app.
    unfold chunkEvents. rewrite <- (map_map Some StreamChunk).
    destruct (run_chunks (run s (openStream s data)) [] base
                (mkMsg model (js "...")) (map Some ts) Hp Hm) as (Hm' & Hp').
    { by destruct ts. }
    by rewrite Hstring in Hm', Hp'. }
  assert (Hwoven : forall ts, ts <> [] ->
            sendView (run dispatched (weave (streamOpening s data ++ chunkEvents ts) others))
              = (base ++ [mkMsg model (concat ts)], Some (InStream (concat ts)), true)).
  { intros ts Hts.
    destruct (sendView_weave _ others dispatched dispatched eq_refl Hl (Hstr ts) Hoth)
      as (Hv & Hl').
    destruct (Hplain ts Hts) as (Hm' & Hp').
    unfold sendView in *. congruence. }
  split; [|].
  - intros k [Hk0 Hkn].
    assert (Hts : take k texts <> []) by (destruct texts; [done|]; destruct k; [lia|done]).
    pose proof (Hwoven _ Hts) as Hv. unfold sendView in Hv. congruence.
  - rewrite app_assoc, weave_app, run_app.
    pose proof (Hwoven texts Hne) as Hv.
    set (s1 := run dispatched (weave (streamOpening s data ++ chunkEvents texts) others)) in *.
    set (rest := drop _ others).
    assert (Hrest : Forall (Forall (fun e => formControl e = true)) rest)
      by apply Forall_drop, Hoth.
    clearbody s1 rest. unfold sendView in Hv. injection Hv as Hm1 Hp1 Hl1.
    assert (Hend : forall s0, sendView s0 = sendView s1 ->
              messages (step s0 StreamEnds) = base ++ [mkMsg model (concat texts)]
              /\ pending (step s0 StreamEnds) = None).
    { intros s0 [= Hm0 Hp0 _]. simpl. rewrite Hp0, Hp1. simpl. by rewrite Hm0, Hm1. }
    destruct rest as [|o rest]; simpl.
    + by apply Hend.
    + inversion Hrest as [|? ? Ho _]; subst. rewrite run_app. simpl.
      apply Hend. by apply sendView_formControls.
Qed.

Lemma C3_stream_accumulates_witness :
  let s := run (mount None) [InputChange (js "What is force majeure?")] in
  let others := [[]; [FileChange (Some examplePdf); Submit]; [RemoveFile]] in
  messages (run (step s Submit)
              (weave (streamOpening s [] ++
                      chunkEvents [js "Force "; js "majeure is..."] ++ [StreamEnds])
                 others))
  = (messages s ++ [mkMsg user (userText (input s) (attachedFile s))])
      ++ [mkMsg model (concat [js "Force "; js "majeure is..."])].
Proof.
  intros s others.
  assert (Hb : sendBlocked s = false) by (vm_compute; reflexivity).
  assert (Hd : isDeepSearch s = false) by (vm_compute; reflexivity).
  assert (Hne : [js "Force "; js "majeure is..."] <> []) by discriminate.
  assert (Hoth : Forall (Forall (fun e => formControl e = true)) others)
    by (repeat constructor).
  exact (proj1 (proj2 (C3_stream_accumulates s [] [js "Force "; js "majeure is..."]
                         others Hb Hd Hne Hoth))).
Defined.

(** ** C4: citations of a deep search *)

Lemma truthy_true (s : jstring) : truthy s = true <-> s <> [].
Proof. destruct s; simpl; split; done. Qed.

Lemma truthyWeb_citable (g : GroundingChunk) :
  truthyWeb (web g) = true -> citable g (asCitation (web g)).
Proof.
  unfold truthyWeb, citable, asCitation. destruct (web g) as [w|]; [|done].
  destruct (web_uri w) as [u|] eqn:Eu; [|done].
  destruct (web_title w) as [t|] eqn:Et; [|done].
  intros [Hu Ht]%andb_true_iff. exists w. simpl. rewrite Eu, Et. simpl.
  by rewrite <- !truthy_true.
Qed.

Lemma citable_truthyWeb (g : GroundingChunk) (c : Citation) :
  citable g c -> truthyWeb (web g) = true.
Proof.
  intros (w & Hw & Hu & Ht & Hun & Htn). unfold truthyWeb. rewrite Hw, Hu, Ht.
  apply andb_true_iff. by rewrite !truthy_true.
Qed.

Lemma citable_functional (g : GroundingChunk) (c c' : Citation) :
  citable g c -> citable g c' -> c = c'.
Proof.
  intros (w & Hw & Hu & Ht & _) (w' & Hw' & Hu' & Ht' & _).
  destruct c, c'; simpl in *. congruence.
Qed.

Lemma extractCitations_Cited (chunks : option (list GroundingChunk)) :
  Cited (default [] chunks) (extractCitations chunks).
Proof.
  destruct chunks as [gs|]; simpl; [|constructor].
  induction gs as [|g gs IH]; simpl; [constructor|].
  destruct (truthyWeb (web g)) eqn:E; simpl.
  - apply Cited_keep; [by apply truthyWeb_citable|done].
  - apply Cited_drop; [|done]. intros c Hc. apply citable_truthyWeb in Hc. congruence.
Qed.

Lemma Cited_functional (gs : list GroundingChunk) (cs cs' : list Citation) :
  Cited gs cs -> Cited gs cs' -> cs = cs'.
Proof.
  intros H. revert cs'. induction H as [|g c gs cs Hc _ IH|g gs cs Hn _ IH];
    intros cs' H'; inversion H'; subst; try done.
  - f_equal; [by eapply citable_functional|by apply IH].
  - by exfalso; eapply H1.
  - by exfalso; eapply Hn.
  - by apply IH.
Qed.

(** C4.  After a deep-search send has received its response, the model
    entry carries the response text and the citation list made of exactly
    the grounding entries whose [uri] and [title] are both present and
    non-empty, in source order; the others are dropped. *)
Theorem C4_deep_search_citations (s : State) (response : GenerateContentResponse) :
  sendBlocked s = false -> isDeepSearch s = true ->
  exists cs,
    messages (run s [Submit; GenerateContentResolves response])
      = messages s ++ [mkMsg user (userText (input s) (attachedFile s));
                       {| role := model; text := response_text response;
                          citations := Some cs |}]
    /\ Cited (default [] (groundingChunks response)) cs
    /\ forall cs', Cited (default [] (groundingChunks response)) cs' -> cs' = cs.
Proof.
  intros Hb Hd. exists (extractCitations (groundingChunks response)).
  destruct (submit_deep s Hb Hd) as (Hm & Hp). split; [|split].
  - simpl in *. rewrite Hp. simpl. rewrite Hm.
    change [?a; ?b] with ([a] ++ [b]) at 1. by rewrite app_assoc, replaceLast_snoc, <- app_assoc.
  - apply extractCitations_Cited.
  - intros cs' H. eapply Cited_functional; [done|apply extractCitations_Cited].
Qed.

Lemma C4_deep_search_citations_witness :
  let s := run (mount None) [InputChange (js "hi"); ToggleDeepSearch] in
  exists cs,
    messages (run s [Submit; GenerateContentResolves exampleResponse])
      = messages s ++ [mkMsg user (js "hi");
                       {| role := model; text := js "answer"; citations := Some cs |}]
    /\ Cited (default [] (groundingChunks exampleResponse)) cs
    /\ forall cs', Cited (default [] (groundingChunks exampleResponse)) cs' -> cs' = cs.
Proof.
  intros s. apply (C4_deep_search_citations s exampleResponse).
  - vm_compute. reflexivity.
  - vm_compute. reflexivity.
Defined.

(** ** The frames of the welcome animation *)

Lemma reachable_run (s : State) (es : list Event) : reachable s -> reachable (run s es).
Proof.
  revert s. induction es as [|e es IH]; intros s H; simpl; [done|].
  apply IH. by constructor.
Qed.

Lemma run_repeat_S (s : State) (e : Event) (n : nat) :
  run s (repeat e (S n)) = step (run s (repeat e n)) e.
Proof.
  replace (S n) with (n + 1) by lia.
  rewrite repeat_app, run_app. done.
Qed.

(** While characters remain, [n] runs of the callback leave the closure
    [n] characters further and show that prefix followed by the cursor. *)
Lemma run_ticks (id : positive) (n : nat) (s : State) (i : nat) :
  intervals s !! id = Some {| animatedText := take i fullWelcomeMessageText; frame_i := i |} ->
  i + n <= length fullWelcomeMessageText ->
  let s' := run s (repeat (IntervalFires id) n) in
  intervals s' !! id
    = Some {| animatedText := take (i + n) fullWelcomeMessageText; frame_i := i + n |}
  /\ (0 < n ->
      messages s' = [mkMsg model (take (i + n) fullWelcomeMessageText ++ cursor)]).
Proof.
  induction n as [|n IH]; intros Hc Hle s'.
  - subst s'. simpl. rewrite Nat.add_0_r. split; [done|lia].
  - subst s'. rewrite run_repeat_S.
    destruct IH as (Hc' & _); [done|lia|].
    set (s1 := run s (repeat (IntervalFires id) n)) in *.
    simpl. rewrite Hc'. unfold intervalCallback. simpl.
    replace (i + n <? length fullWelcomeMessageText) with true
      by (symmetry; apply Nat.ltb_lt; lia).
    simpl. rewrite take_charAt by lia. rewrite lookup_insert_eq.
    replace (i + S n) with (S (i + n)) by lia. done.
Qed.

(** The run after the last character: the cursor goes, the timer is
    cleared. *)
Lemma final_tick (s : State) (id : positive) (c : Interval) :
  reachable s -> intervals s !! id = Some c ->
  frame_i c = length fullWelcomeMessageText ->
  messages (step s (IntervalFires id)) = [mkMsg model fullWelcomeMessageText]
  /\ intervals (step s (IntervalFires id)) = ∅.
Proof.
  intros Hr Hc Hi. pose proof (timerInv_reachable s Hr) as Inv.
  destruct (Inv _ _ Hc) as (_ & Ht & _).
  simpl. rewrite Hc. unfold intervalCallback. rewrite Hi, Nat.ltb_irrefl. simpl.
  rewrite Ht, Hi, firstn_all. split; [done|]. by apply clearWelcomeInterval_empty.
Qed.

(** What a persona change leaves of the timers: none when [startChat]
    throws, the fresh one otherwise. *)
Lemma intervals_ModelChange (s : State) (k : AiModelKeys) (thrown : option Thrown) :
  reachable s -> k <> currentModel s ->
  intervals (step s (ModelChange k thrown))
    = match thrown with
      | Some _ => ∅
      | None => {[ nextInterval s := {| animatedText := []; frame_i := 0 |} ]}
      end.
Proof.
  intros Hr Hk. pose proof (timerInv_reachable s Hr) as Inv.
  assert (Inv1 : timerInv (setCurrentModel k s)) by by apply (timerInv_of_view s).
  pose proof (timerInv_cleanup _ Inv1) as Inv2.
  simpl. case_decide; [done|]. destruct thrown as [e|]; simpl.
  - unfold effectCleanup. by apply clearWelcomeInterval_empty.
  - set (s2 := setChat _ _). assert (Inv3 : timerInv s2) by by apply (timerInv_of_view _ _ eq_refl).
    rewrite (clearWelcomeInterval_empty s2 Inv3).
    destruct (clearWelcomeInterval_view s2) as [_ ->]. simpl.
    unfold effectCleanup. by destruct (clearWelcomeInterval_view (setCurrentModel k s)) as [_ ->].
Qed.

Lemma timers_step (s : State) (e : Event) :
  (forall k t, e <> ModelChange k t) -> (forall id, e <> IntervalFires id) ->
  nextInterval (step s e) = nextInterval s /\ intervals (step s e) = intervals s.
Proof.
  intros Hm Hi. pose proof (timerView_step s e Hm Hi) as H.
  unfold timerView in H. split; congruence.
Qed.

(** Timer ids are never reused: a timer that is gone stays gone. *)
Lemma cleared_stays_cleared (s : State) (e : Event) (id : positive) :
  (id < nextInterval s)%positive -> intervals s !! id = None ->
  (id < nextInterval (step s e))%positive /\ intervals (step s e) !! id = None.
Proof.
  intros Hlt Hn.
  destruct e as [k t|id2| | | | | | | | | | | |];
    try (match goal with
         | |- context [step s ?e] =>
             destruct (timers_step s e) as [-> ->]; [done|done|done]
         end).
  - simpl. case_decide; [done|]. unfold effectCleanup, clearWelcomeInterval.
    destruct t as [e|]; simpl.
    + case_match; simpl; [|done]. by rewrite lookup_delete_None; auto.
    + unfold animateWelcomeMessage, setWelcomeInterval, clearWelcomeInterval.
      repeat (case_match; simpl); (split; [lia|]);
        (rewrite lookup_insert_ne by lia); rewrite ?lookup_delete_None; auto.
  - simpl. destruct (intervals s !! id2) as [c|] eqn:E; [|done].
    unfold intervalCallback, clearWelcomeInterval.
    repeat (case_match; simpl); (split; [done|]); try done.
    + rewrite lookup_insert_ne; [done|congruence].
    + rewrite lookup_delete_None; auto.
Qed.

Lemma cleared_after_run (s : State) (es : list Event) (id : positive) :
  (id < nextInterval s)%positive -> intervals s !! id = None ->
  intervals (run s es) !! id = None.
Proof.
  revert s. induction es as [|e es IH]; intros s Hlt Hn; simpl; [done|].
  destruct (cleared_stays_cleared s e id Hlt Hn). by apply IH.
Qed.

(** ** C5: the welcome animation after a persona switch *)

(** C5, as stated, fails on two frames.  The frame the last character
    produces is the whole banner followed by the cursor, while the timer
    is still live: what precedes the cursor is not a proper prefix.  And
    the frame the transcript is seeded with is the empty text, without
    cursor. *)
Lemma C5_counterexample :
  let L := length fullWelcomeMessageText in
  let s := run (mount None) (repeat (IntervalFires 1) L) in
  is_Some (intervals s !! 1%positive)
  /\ messages s = [mkMsg model (fullWelcomeMessageText ++ cursor)]
  /\ ~ (exists p, properPrefix p fullWelcomeMessageText
                  /\ fullWelcomeMessageText ++ cursor = p ++ cursor)
  /\ messages (mount None) = [mkMsg model []]
  /\ ~ (exists p : jstring, [] = p ++ cursor).
Proof.
  intros L s. split; [|split; [|split; [|split]]].
  - eexists. vm_compute. reflexivity.
  - vm_compute. reflexivity.
  - intros (p & (q & Hq & HB) & E). apply app_inv_tail in E. subst p.
    rewrite <- (app_nil_r fullWelcomeMessageText) in HB at 1.
    apply app_inv_head in HB. congruence.
  - reflexivity.
  - intros [p E]. by destruct p.
Qed.

(** C5 (amended).  After a persona switch whose session is created, the
    transcript is seeded with one model entry of empty text; the [n]-th
    run of the timer, for [n] from 1 to the banner's length, shows the
    first [n] characters of the banner followed by the cursor (the last
    such frame is the whole banner with the cursor); the next run shows
    the banner verbatim and clears the timer.  A timer that was live
    before the switch is cleared by it, whether or not the new session
    could be created, and never runs again. *)
Theorem C5_welcome_animation (s : State) (k : AiModelKeys) :
  reachable s -> k <> currentModel s ->
  let s0 := step s (ModelChange k None) in
  let frame n := run s0 (repeat (IntervalFires (nextInterval s)) n) in
  let L := length fullWelcomeMessageText in
  messages s0 = [mkMsg model []]
  /\ (forall n, 0 < n <= L ->
        messages (frame n) = [mkMsg model (take n fullWelcomeMessageText ++ cursor)])
  /\ messages (frame (S L)) = [mkMsg model fullWelcomeMessageText]
  /\ intervals (frame (S L)) = ∅
  /\ (forall id thrown es, is_Some (intervals s !! id) ->
        let s' := run (step s (ModelChange k thrown)) es in
        step s' (IntervalFires id) = s').
Proof.
  intros Hr Hk s0 frame L.
  pose proof (intervals_ModelChange s k None Hr Hk) as Hi. fold s0 in Hi.
  assert (Hc : intervals s0 !! nextInterval s
               = Some {| animatedText := take 0 fullWelcomeMessageText; frame_i := 0 |}).
  { rewrite Hi. apply lookup_singleton_eq. }
  split; [|split; [|split; [|split]]].
  - subst s0. simpl. by case_decide.
  - intros n [Hn0 HnL]. by apply (run_ticks _ n s0 0 Hc).
  - subst frame. cbv beta. rewrite run_repeat_S.
    destruct (run_ticks _ L s0 0 Hc) as (Hc' & _); [done|].
    eapply final_tick; [|exact Hc'|done].
    apply reachable_run. by constructor.
  - subst frame. cbv beta. rewrite run_repeat_S.
    destruct (run_ticks _ L s0 0 Hc) as (Hc' & _); [done|].
    eapply final_tick; [|exact Hc'|done].
    apply reachable_run. by constructor.
  - intros id thrown es [c Hid] s'.
    destruct (timerInv_reachable s Hr _ _ Hid) as (_ & _ & _ & Hlt).
    assert (Hgone : intervals s' !! id = None).
    { subst s'. apply cleared_after_run.
      - simpl. case_decide; [done|]. unfold effectCleanup.
        destruct thrown; simpl;
          repeat match goal with
                 | |- context [nextInterval (clearWelcomeInterval ?x)] =>
                     destruct (clearWelcomeInterval_view x) as [_ ->]; simpl
                 end; lia.
      - rewrite (intervals_ModelChange s k thrown Hr Hk). destruct thrown.
        + apply lookup_empty.
        + apply lookup_singleton_ne. lia. }
    simpl. by rewrite Hgone.
Qed.

Lemma C5_welcome_animation_witness :
  let s := mount None in
  let s0 := step s (ModelChange legal_pro None) in
  let frame n := run s0 (repeat (IntervalFires (nextInterval s)) n) in
  let L := length fullWelcomeMessageText in
  messages s0 = [mkMsg model []]
  /\ (forall n, 0 < n <= L ->
        messages (frame n) = [mkMsg model (take n fullWelcomeMessageText ++ cursor)])
  /\ messages (frame (S L)) = [mkMsg model fullWelcomeMessageText]
  /\ intervals (frame (S L)) = ∅
  /\ (forall id thrown es, is_Some (intervals s !! id) ->
        let s' := run (step s (ModelChange legal_pro thrown)) es in
        step s' (IntervalFires id) = s').
Proof.
  apply (C5_welcome_animation (mount None) legal_pro).
  - apply reachable_mount.
  - discriminate.
Defined.

(** ** C2: the animation and sends *)

(** C2, as stated, fails right after mounting: the animation is running
    (its timer is live), the send of "hi" is dispatched all the same, and
    the next frame replaces the transcript, user turn included, while the
    reply is awaited. *)
Lemma C2_counterexample :
  let s := run (mount None) [InputChange (js "hi")] in
  let dispatched := step s Submit in
  let overwritten := step dispatched (IntervalFires 1) in
  reachable s
  /\ is_Some (intervals s !! 1%positive)
  /\ messages dispatched = [mkMsg model []; mkMsg user (js "hi")]
  /\ pending dispatched = Some AwaitStream
  /\ messages overwritten = [mkMsg model (take 1 fullWelcomeMessageText ++ cursor)]
  /\ pending overwritten = Some AwaitStream.
Proof.
  intros s dispatched overwritten. split; [|split].
  - apply reachable_run, reachable_mount.
  - eexists. vm_compute. reflexivity.
  - vm_compute. by repeat split.
Qed.

(** C2 (amended).  In every reachable state at most one animation timer
    is live.  A frame of a live timer replaces the whole transcript by a
    single model entry, whatever the transcript held; a timer that is not
    live changes nothing, so once the animation has completed no frame
    touches the transcript.  The send guard does not consult the
    animation: a send whose preconditions hold is dispatched, and leaves
    the timers as they are. *)
Theorem C2_animation_and_sends (s : State) (id : positive) :
  reachable s ->
  (forall id', is_Some (intervals s !! id) -> is_Some (intervals s !! id') -> id' = id)
  /\ (is_Some (intervals s !! id) ->
      exists t, messages (step s (IntervalFires id)) = [mkMsg model t])
  /\ (intervals s !! id = None -> step s (IntervalFires id) = s)
  /\ (sendBlocked s = false ->
      is_Some (pending (step s Submit)) /\ intervals (step s Submit) = intervals s).
Proof.
  intros Hr. pose proof (timerInv_reachable s Hr) as Inv.
  split; [|split; [|split]].
  - intros id' [c Hc] [c' Hc'].
    destruct (Inv _ _ Hc) as [H1 _]. destruct (Inv _ _ Hc') as [H2 _]. congruence.
  - intros [c Hc]. simpl. rewrite Hc. unfold intervalCallback.
    case_match; simpl; eauto.
  - intros Hn. simpl. by rewrite Hn.
  - intros Hb. split; [|by apply timers_step].
    destruct (isDeepSearch s) eqn:Hd.
    + destruct (submit_deep s Hb Hd) as [_ ->]. eauto.
    + destruct (submit_standard s Hb Hd) as (_ & c & _ & ->). eauto.
Qed.

Lemma C2_animation_and_sends_witness :
  let s := run (mount None) [InputChange (js "hi")] in
  (forall id', is_Some (intervals s !! 1%positive) -> is_Some (intervals s !! id') ->
               id' = 1%positive)
  /\ (is_Some (intervals s !! 1%positive) ->
      exists t, messages (step s (IntervalFires 1)) = [mkMsg model t])
  /\ (intervals s !! 1%positive = None -> step s (IntervalFires 1) = s)
  /\ (sendBlocked s = false ->
      is_Some (pending (step s Submit)) /\ intervals (step s Submit) = intervals s).
Proof.
  apply (C2_animation_and_sends (run (mount None) [InputChange (js "hi")]) 1).
  apply reachable_run, reachable_mount.
Defined.

(** ** C6: the exported text *)










(** ** C7: the guard of a send *)

(** C7, as stated, fails on a text of one space without attachment: the
    text is not empty, no send is in flight, the session exists, and the
    submission is ignored. *)
Lemma C7_counterexample :
  let s := run (mount None) [InputChange (js " ")] in
  input s = js " " /\ input s <> []
  /\ attachedFile s = None /\ isLoading s = false /\ chat s = Some 0
  /\ step s Submit = s.
Proof.
  vm_compute. repeat split; done.
Qed.

(** C7 (amended).  A submission is ignored exactly when the text is made
    of white space only (empty included) and no attachment is present, or
    a send is in flight, or there is no session: then the state is
    unchanged, requests and sessions included.  Otherwise the send
    proceeds: the user's entry is appended and the in-flight flag is
    set. *)
Theorem C7_send_guard (s : State) :
  (sendBlocked s = true <->
     (forallb is_ws (input s) = true /\ attachedFile s = None)
     \/ isLoading s = true \/ chat s = None)
  /\ (sendBlocked s = true -> step s Submit = s)
  /\ (sendBlocked s = false ->
      isLoading (step s Submit) = true
      /\ exists rest,
           messages (step s Submit)
             = messages s ++ mkMsg user (userText (input s) (attachedFile s)) :: rest).
Proof.
  split; [|split].
  - unfold sendBlocked. rewrite <- trim_falsy_iff.
    destruct (truthy (trim (input s))), (attachedFile s), (isLoading s), (chat s);
      simpl; (split; [intros ?; auto | intros [[? ?]|[?|?]]; congruence]).
  - intros Hb. simpl. unfold handleSendMessage. by rewrite Hb.
  - intros Hb. destruct (sendBlocked_false s Hb) as (Hl & [c Hc] & _).
    simpl. unfold handleSendMessage. rewrite Hb.
    destruct (isDeepSearch s); simpl.
    + split; [done|]. eexists. by rewrite <- app_assoc.
    + rewrite Hc. simpl. destruct (attachedFile s); simpl; (split; [done|]);
        exists []; done.
Qed.

(** ** C8: what the end of a send cycle resets *)

(** A step leaves the suspended handler where it is, suspends it again, or
    ends with the [finally] block. *)
Lemma step_pending_cases (s : State) (e : Event) :
  pending (step s e) = pending s
  \/ is_Some (pending (step s e))
  \/ exists s', step s e = sendFinally s'.
Proof.
  destruct e; unfold_handlers; unfold_effects;
    repeat (case_match; simpl); eauto.
Qed.

(** A step leaves the error as it is or sets one, unless it is the dispatch
    of a send. *)
Lemma step_error_cases (s : State) (e : Event) :
  error (step s e) = error s
  \/ is_Some (error (step s e))
  \/ (e = Submit /\ sendBlocked s = false).
Proof.
  destruct e; unfold_handlers; unfold_effects;
    repeat (case_match; simpl); eauto.
Qed.

(** C8.  Whatever event ends a send cycle (the stream ends, the response
    arrives, or the awaited call fails), the in-flight flag is false and
    the attachment and the deep-search toggle are cleared when it has
    run.  A failure leaves its error message set; the error is cleared by
    the dispatch of the next send, and by no other event. *)
Theorem C8_send_cycle_resets (s : State) (e : Event) :
  is_Some (pending s) -> pending (step s e) = None ->
  (isLoading (step s e) = false
   /\ attachedFile (step s e) = None
   /\ isDeepSearch (step s e) = false)
  /\ (forall err, e = Rejects err ->
        error (step s e)
          = Some (js "Error from AI: " ++ errorMessage err (js "An unknown error occurred.")))
  /\ (forall s1, sendBlocked s1 = false -> error (step s1 Submit) = None)
  /\ (forall s1 e1, is_Some (error s1) -> error (step s1 e1) = None ->
        e1 = Submit /\ sendBlocked s1 = false).
Proof.
  intros [p Hp] Hdone. split; [|split; [|split]].
  - destruct (step_pending_cases s e) as [H|[[p' H]|[s' H]]].
    + congruence.
    + congruence.
    + by rewrite H.
  - intros err ->. simpl. rewrite Hp. by destruct p.
  - intros s1 Hb. simpl. unfold handleSendMessage. rewrite Hb.
    destruct (sendBlocked_false s1 Hb) as (_ & [c Hc] & _). rewrite Hc.
    by destruct (isDeepSearch s1), (attachedFile s1).
  - intros s1 e1 [m Hm] He.
    destruct (step_error_cases s1 e1) as [H|[[m' H]|H]]; [congruence|congruence|done].
Qed.

Lemma C8_send_cycle_resets_witness :
  let s := run (mount None)
             [InputChange (js "hi");
              FileChange (Some {| file_name := js "a.pdf"; file_type := js "application/pdf" |});
              ToggleDeepSearch; Submit] in
  let s' := step s (Rejects (ErrorObject (js "boom"))) in
  (isLoading s' = false /\ attachedFile s' = None /\ isDeepSearch s' = false)
  /\ error s' = Some (js "Error from AI: boom").
Proof.
  intros s s'.
  destruct (C8_send_cycle_resets s (Rejects (ErrorObject (js "boom")))) as (H1 & H2 & _).
  - eexists. vm_compute. reflexivity.
  - vm_compute. reflexivity.
  - split; [exact H1|]. exact (H2 _ eq_refl).
Defined.

(** ** C9, C10: what a deep search sends *)

(** While the grounded call is awaited, a step issues no request and sends
    nothing through a session (a persona change may create a session, with
    nothing sent); either the handler keeps waiting or the cycle has ended
    with the attachment cleared. *)
Lemma awaitingGrounded_step (s : State) (e : Event) :
  awaitingGrounded s ->
  (exists new, sessions (step s e) = sessions s ++ new
               /\ Forall (fun ch => sent ch = []) new)
  /\ requests (step s e) = requests s
  /\ (awaitingGrounded (step s e)
      \/ (pending (step s e) = None /\ attachedFile (step s e) = None)).
Proof.
  intros [Hp Hl]. unfold awaitingGrounded.
  assert (Hnil : exists new, sessions s = sessions s ++ new
                             /\ Forall (fun ch => sent ch = []) new).
  { exists []. by rewrite app_nil_r. }
  destruct e; unfold_handlers; unfold sendBlocked; unfold_effects;
    rewrite ?Hp, ?Hl, ?orb_true_r; simpl;
    repeat (case_match; simpl); rewrite ?Hp, ?Hl; auto.
  all: split; [|auto]; eexists [_]; split; [done|]; by repeat constructor.
Qed.

Lemma awaitingGrounded_run (s : State) (es : list Event) :
  awaitingGrounded s -> withinCycle s es ->
  (exists new, sessions (run s es) = sessions s ++ new
               /\ Forall (fun ch => sent ch = []) new)
  /\ requests (run s es) = requests s
  /\ (awaitingGrounded (run s es)
      \/ (pending (run s es) = None /\ attachedFile (run s es) = None)).
Proof.
  intros Ha. induction es as [|e es IH] using rev_ind; intros Hw.
  - simpl. split; [|by auto]. exists []. by rewrite app_nil_r.
  - destruct IH as ((new & Hs & Hnew) & Hr & Hst).
    { intros es1 es2 -> Hne. apply (Hw es1 (es2 ++ [e])).
      - by rewrite app_assoc.
      - by destruct es2. }
    destruct Hst as [Ha'|[Hp' _]].
    2: { destruct (Hw es [e] eq_refl ltac:(done)) as [p Hp]. congruence. }
    rewrite run_app. simpl.
    destruct (awaitingGrounded_step (run s es) e Ha') as ((new' & Hs' & Hnew') & Hr' & Hst').
    split; [|split; [congruence|done]].
    exists (new ++ new'). rewrite Hs', Hs, app_assoc. split; [done|].
    by apply Forall_app.
Qed.

Lemma transmitted_app (s s' : State) (new : list Chat) :
  sessions s' = sessions s ++ new -> Forall (fun ch => sent ch = []) new ->
  transmitted s' = transmitted s.
Proof.
  unfold transmitted. intros -> H. rewrite map_app, concat_app.
  rewrite <- (app_nil_r (concat (map sent (sessions s)))) at 2. f_equal.
  induction H as [|ch new Hch _ IH]; [done|]. simpl. by rewrite Hch, IH.
Qed.

Lemma submit_deep_requests (s : State) :
  sendBlocked s = false -> isDeepSearch s = true ->
  requests (step s Submit) = requests s ++ [groundedRequest (input s)]
  /\ sessions (step s Submit) = sessions s
  /\ awaitingGrounded (step s Submit).
Proof.
  intros Hb Hd. simpl. unfold handleSendMessage, awaitingGrounded.
  by rewrite Hb, Hd.
Qed.

(** C9.  A deep-search send with an attachment: the user's entry carries
    the file annotation; the one request issued is the grounded one, whose
    content is the input text alone; throughout the cycle, whatever else
    happens meanwhile, the file is never converted, nothing is sent
    through a chat session and no further request is issued; and the
    response, like a rejection, ends the cycle with the attachment
    cleared and the in-flight flag off. *)
Theorem C9_deep_search_drops_attachment (s : State) (f : File) (es : list Event) :
  sendBlocked s = false -> isDeepSearch s = true -> attachedFile s = Some f ->
  withinCycle (step s Submit) es ->
  let s1 := step s Submit in
  let s' := run s1 es in
  messages s1
    = messages s ++
        [mkMsg user (input s ++ nl ++ nl ++ js "[File Attached: " ++ file_name f ++ js "]");
         mkMsg model (js "Performing deep search...")]
  /\ requests s' = requests s ++ [groundedRequest (input s)]
  /\ contents (groundedRequest (input s)) = input s
  /\ transmitted s' = transmitted s
  /\ (pending s' = Some AwaitGenerateContent
      \/ (pending s' = None /\ attachedFile s' = None))
  /\ (pending s' = Some AwaitGenerateContent ->
      (forall response,
         let settled := step s' (GenerateContentResolves response) in
         pending settled = None /\ attachedFile settled = None
         /\ isLoading settled = false)
      /\ (forall err,
            let failed := step s' (Rejects err) in
            pending failed = None /\ attachedFile failed = None
            /\ isLoading failed = false)).
Proof.
  intros Hb Hd Hf Hw s1 s'.
  destruct (submit_deep s Hb Hd) as (Hm & _).
  destruct (submit_deep_requests s Hb Hd) as (Hr & Hs & Ha).
  destruct (awaitingGrounded_run s1 es Ha Hw) as ((new & Hs' & Hnew) & Hr' & Hst).
  fold s' in Hs', Hr', Hst. fold s1 in Hm, Hr, Hs.
  split; [|split; [|split; [|split; [|split]]]].
  - rewrite Hm. unfold userText. by rewrite Hf.
  - by rewrite Hr', Hr.
  - done.
  - rewrite Hs in Hs'. by apply (transmitted_app s s' new).
  - destruct Hst as [[Hp _]|Hend]; auto.
  - intros Hp. clearbody s'. split; [intros response|intros err];
      simpl; by rewrite Hp.
Qed.

Lemma C9_deep_search_drops_attachment_witness :
  let s := run (mount None)
             [InputChange (js "hi"); FileChange (Some examplePdf); ToggleDeepSearch] in
  let s1 := step s Submit in
  let settled := step s1 (GenerateContentResolves exampleResponse) in
  requests s1 = requests s ++ [groundedRequest (input s)]
  /\ transmitted s1 = transmitted s
  /\ pending settled = None
  /\ attachedFile settled = None
  /\ isLoading settled = false.
Proof.
  intros s s1 settled.
  assert (Hb : sendBlocked s = false) by (vm_compute; reflexivity).
  assert (Hd : isDeepSearch s = true) by (vm_compute; reflexivity).
  assert (Hf : attachedFile s = Some examplePdf) by (vm_compute; reflexivity).
  assert (Hp : pending (step s Submit) = Some AwaitGenerateContent)
    by (vm_compute; reflexivity).
  assert (Hw : withinCycle (step s Submit) []).
  { intros es1 es2 E Hne. symmetry in E. apply app_eq_nil in E as [_ E]. done. }
  destruct (C9_deep_search_drops_attachment s examplePdf [] Hb Hd Hf Hw)
    as (_ & H2 & _ & H4 & _ & H6).
  destruct (H6 Hp) as [Hsettled _].
  exact (conj H2 (conj H4 (Hsettled exampleResponse))).
Defined.

(** C10.  A deep-search send issues one fresh request that carries no
    system instruction and is the same whatever persona or session is
    active; throughout its cycle every chat session that existed keeps
    its context untouched (nothing is sent through any session), so a
    later standard-chat turn finds the session as if the deep search had
    not taken place. *)
Theorem C10_deep_search_bypasses_session (s : State) (es : list Event) :
  sendBlocked s = false -> isDeepSearch s = true ->
  withinCycle (step s Submit) es ->
  let s' := run (step s Submit) es in
  (exists req,
     requests s' = requests s ++ [req]
     /\ config_systemInstruction (config req) = None
     /\ forall s2, sendBlocked s2 = false -> isDeepSearch s2 = true ->
          input s2 = input s ->
          requests (step s2 Submit) = requests s2 ++ [req])
  /\ (forall c ch, sessions s !! c = Some ch -> sessions s' !! c = Some ch)
  /\ transmitted s' = transmitted s.
Proof.
  intros Hb Hd Hw s'.
  destruct (submit_deep_requests s Hb Hd) as (Hr & Hs & Ha).
  destruct (awaitingGrounded_run _ es Ha Hw) as ((new & Hs' & Hnew) & Hr' & _).
  fold s' in Hs', Hr'. rewrite Hs in Hs'.
  split; [|split].
  - exists (groundedRequest (input s)). split; [by rewrite Hr', Hr|]. split; [done|].
    intros s2 Hb2 Hd2 <-. by destruct (submit_deep_requests s2 Hb2 Hd2) as (-> & _).
  - intros c ch Hc. rewrite Hs'. by apply lookup_app_l_Some.
  - by apply (transmitted_app s s' new).
Qed.

Lemma C10_deep_search_bypasses_session_witness :
  let s := run (mount None) [InputChange (js "hi"); ToggleDeepSearch] in
  let s' := run (step s Submit) [GenerateContentResolves exampleResponse] in
  (forall c ch, sessions s !! c = Some ch -> sessions s' !! c = Some ch)
  /\ transmitted s' = transmitted s.
Proof.
  intros s s'.
  assert (Hb : sendBlocked s = false) by (vm_compute; reflexivity).
  assert (Hd : isDeepSearch s = true) by (vm_compute; reflexivity).
  assert (Hw : withinCycle (step s Submit) [GenerateContentResolves exampleResponse]).
  { intros [|e1 [|e2 es1]] es2 E Hne.
    - eexists. vm_compute. reflexivity.
    - injection E as _ E. subst es2. done.
    - injection E as _ E. discriminate E. }
  exact (proj2 (C10_deep_search_bypasses_session s _ Hb Hd Hw)).
Defined.

(** * Further properties of the code *)

(** ** The attachment's payload *)


Lemma split_cons (sep : N) (s : jstring) : exists piece pieces, split sep s = piece :: pieces.
Proof.
  induction s as [|c s (piece & pieces & IH)]; simpl; [eauto|].
  destruct (c =? sep)%N; [eauto|]. rewrite IH. eauto.
Qed.





(** ** Invariants of the reachable states *)

Lemma loadingInv_step (s : State) (e : Event) : loadingInv s -> loadingInv (step s e).
Proof.
  unfold loadingInv. intros [[Hl [p Hp]]|[Hl Hp]];
    destruct e; unfold_handlers; unfold sendBlocked; unfold_effects;
    rewrite ?Hp, ?Hl, ?orb_true_r; simpl;
    repeat (case_match; simpl); rewrite ?Hp, ?Hl; eauto.
Qed.

Lemma loadingInv_reachable (s : State) : reachable s -> loadingInv s.
Proof.
  induction 1 as [thrown|s e _ IH]; [|by apply loadingInv_step].
  right. by destruct thrown.
Qed.

(** X2.  In every reachable state the in-flight flag is set exactly while
    a send handler is suspended; and while it is set, a submission, typing,
    the code button and the deep-search toggle change nothing: at most one
    send is in flight. *)
Theorem X2_one_send_in_flight (s : State) :
  reachable s ->
  (isLoading s = true <-> is_Some (pending s))
  /\ (isLoading s = true ->
      step s Submit = s
      /\ (forall value, step s (InputChange value) = s)
      /\ step s FormatAsCode = s
      /\ step s ToggleDeepSearch = s).
Proof.
  intros Hr. split.
  - destruct (loadingInv_reachable s Hr) as [[Hl [p Hp]]|[Hl Hp]]; rewrite Hl, Hp.
    + split; eauto.
    + split; [done|]. by intros [? ?].
  - intros Hl. simpl. unfold handleSendMessage, sendBlocked.
    by rewrite Hl, orb_true_r.
Qed.

Lemma X2_one_send_in_flight_witness :
  let s := run (mount None) [InputChange (js "hi"); Submit] in
  (isLoading s = true <-> is_Some (pending s))
  /\ (isLoading s = true ->
      step s Submit = s
      /\ (forall value, step s (InputChange value) = s)
      /\ step s FormatAsCode = s
      /\ step s ToggleDeepSearch = s).
Proof.
  apply (X2_one_send_in_flight (run (mount None) [InputChange (js "hi"); Submit])).
  apply reachable_run, reachable_mount.
Defined.

Lemma Forall_replaceLast (P : Message -> Prop) (m : Message) (l : list Message) :
  P m -> Forall P l -> Forall P (replaceLast m l).
Proof.
  intros Hm Hl. unfold replaceLast. destruct l as [|x l]; [done|].
  by apply Forall_insert.
Qed.

Lemma Forall_dropLast (P : Message -> Prop) (l : list Message) :
  Forall P l -> Forall P (dropLast l).
Proof.
  unfold dropLast. induction 1 as [|x l Hx Hl IH]; [done|].
  simpl. destruct l; [done|]. by constructor.
Qed.

(** Every entry a step writes is a plain one (no citations) or the settled
    reply of a deep search. *)
Lemma Forall_messages_step (P : Message -> Prop) (s : State) (e : Event) :
  (forall r t, P (mkMsg r t)) ->
  (forall t chunks,
     P {| role := model; text := t; citations := Some (extractCitations chunks) |}) ->
  Forall P (messages s) -> Forall P (messages (step s e)).
Proof.
  intros Hplain Hcited Hs.
  destruct e; unfold_handlers; unfold_effects;
    repeat (case_match; simpl);
    repeat first [ done
                 | apply Forall_app_2 | apply Forall_replaceLast
                 | apply Forall_dropLast | apply Forall_cons_2
                 | apply Forall_nil_2 ].
Qed.

Lemma extractCitations_nonempty (chunks : option (list GroundingChunk)) :
  Forall (fun c => uri c <> [] /\ title c <> []) (extractCitations chunks).
Proof.
  pose proof (extractCitations_Cited chunks) as H.
  induction H as [|g c gs cs (w & _ & _ & _ & Hu & Ht) _ IH|]; [done| |done].
  by constructor.
Qed.

(** X3.  In every reachable state the transcript's citations are
    well-formed: user entries carry none, and every citation of a model
    entry has a non-empty [uri] and a non-empty [title]. *)
Theorem X3_transcript_citations_wellformed (s : State) :
  reachable s -> Forall wellCited (messages s).
Proof.
  induction 1 as [thrown|s e _ IH].
  - destruct thrown; simpl; [done|]. by repeat constructor.
  - apply Forall_messages_step; [done| |done].
    intros t chunks. split; [done|]. apply extractCitations_nonempty.
Qed.

Lemma X3_transcript_citations_wellformed_witness :
  Forall wellCited
    (messages (run (mount None)
                 [InputChange (js "hi"); ToggleDeepSearch; Submit;
                  GenerateContentResolves exampleResponse])).
Proof.
  apply X3_transcript_citations_wellformed.
  apply reachable_run, reachable_mount.
Defined.

Lemma sessionInv_step (s : State) (e : Event) : sessionInv s -> sessionInv (step s e).
Proof.
  intros [HF Hc].
  assert (Hnew : forall k, personaSession (startChat (instruction (AI_MODELS k)))).
  { intros k. split; [done|]. by exists k. }
  unfold sessionInv.
  destruct e; unfold_handlers; unfold_effects;
    repeat (case_match; simpl);
    first
      [ done
      | split;
        [ first
            [ done
            | apply Forall_insert; [done|];
              match goal with
              | H : sessions s !! _ = Some ?ch |- _ =>
                  change (personaSession ch); exact (Forall_lookup_1 _ _ _ _ HF H)
              end ]
        | intros c' Hc'; rewrite ?length_insert; apply Hc; congruence ]
      | split;
        [ apply Forall_app_2; [done|apply Forall_cons_2; [apply Hnew|apply Forall_nil_2]]
        | intros c' [= <-]; rewrite length_app; simpl; lia ] ].
Qed.

(** X4.  In every reachable state the active session, if there is one, is
    the most recently created one; it was created for the model
    "gemini-2.5-flash" with the instruction of one of the four personas. *)
Theorem X4_active_session (s : State) (c : nat) :
  reachable s -> chat s = Some c ->
  S c = length (sessions s)
  /\ exists ch k,
       sessions s !! c = Some ch
       /\ chat_model ch = js "gemini-2.5-flash"
       /\ systemInstruction ch = instruction (AI_MODELS k).
Proof.
  intros Hr Hc.
  assert (Inv : sessionInv s).
  { clear Hc. induction Hr as [thrown|s e _ IH]; [|by apply sessionInv_step].
    destruct thrown; simpl.
    - split; [done|]. by intros c'.
    - split; [|by intros c' [= <-]].
      repeat constructor. by exists ecoiuris. }
  destruct Inv as [HF Hlast]. specialize (Hlast c Hc). split; [done|].
  destruct (lookup_lt_is_Some_2 (sessions s) c) as [ch Hch]; [lia|].
  rewrite Forall_lookup in HF. destruct (HF _ _ Hch) as [Hm [k Hk]]. eauto.
Qed.

Lemma X4_active_session_witness :
  let s := run (mount None) [ModelChange legal_pro None; InputChange (js "hi"); Submit] in
  S 1 = length (sessions s)
  /\ exists ch k,
       sessions s !! 1 = Some ch
       /\ chat_model ch = js "gemini-2.5-flash"
       /\ systemInstruction ch = instruction (AI_MODELS k).
Proof.
  apply (X4_active_session
           (run (mount None) [ModelChange legal_pro None; InputChange (js "hi"); Submit]) 1).
  - apply reachable_run, reachable_mount.
  - vm_compute. reflexivity.
Defined.

(** ** Persona switches *)

(** What a persona switch whose session is created changes, and what it
    leaves alone. *)
Lemma ModelChange_created (s : State) (k : AiModelKeys) :
  k <> currentModel s ->
  let s' := step s (ModelChange k None) in
  sessions s' = sessions s ++ [startChat (instruction (AI_MODELS k))]
  /\ chat s' = Some (length (sessions s))
  /\ messages s' = [mkMsg model []]
  /\ pending s' = pending s
  /\ isLoading s' = isLoading s.
Proof.
  intros Hk. simpl. case_decide; [done|]. unfold_effects.
  by repeat (case_match; simpl).
Qed.

(** X5.  A persona switch whose [startChat] throws: the header shows the
    new persona and the error is set, but the previous session stays the
    active one, the transcript is kept as it was, the suspended send (if
    any) is untouched, the welcome animation is stopped where it was, and
    the send guard and the input's [disabled] attribute answer as before:
    messages still go through the previous persona's session. *)
Theorem X5_failed_persona_switch (s : State) (k : AiModelKeys) (e : Thrown) :
  reachable s -> k <> currentModel s ->
  let s' := step s (ModelChange k (Some e)) in
  currentModel s' = k
  /\ headerLabel s' = name (AI_MODELS k)
  /\ error s'
     = Some (js "Failed to initialize AI Chat: "
             ++ errorMessage e (js "An unknown error occurred during initialization."))
  /\ chat s' = chat s /\ sessions s' = sessions s
  /\ messages s' = messages s /\ pending s' = pending s
  /\ intervals s' = ∅
  /\ sendBlocked s' = sendBlocked s
  /\ inputDisabled s' = inputDisabled s.
Proof.
  intros Hr Hk s'.
  pose proof (intervals_ModelChange s k (Some e) Hr Hk) as Hi. fold s' in Hi.
  subst s'. revert Hi. simpl. case_decide; [done|].
  unfold sendBlocked, inputDisabled, headerLabel, effectCleanup, clearWelcomeInterval.
  by case_match.
Qed.

Lemma X5_failed_persona_switch_witness :
  let s := run (mount None) [IntervalFires 1; IntervalFires 1] in
  let s' := step s (ModelChange juscrawler (Some (ErrorObject (js "no key")))) in
  currentModel s' = juscrawler
  /\ headerLabel s' = name (AI_MODELS juscrawler)
  /\ error s'
     = Some (js "Failed to initialize AI Chat: "
             ++ errorMessage (ErrorObject (js "no key"))
                  (js "An unknown error occurred during initialization."))
  /\ chat s' = chat s /\ sessions s' = sessions s
  /\ messages s' = messages s /\ pending s' = pending s
  /\ intervals s' = ∅
  /\ sendBlocked s' = sendBlocked s
  /\ inputDisabled s' = inputDisabled s.
Proof.
  apply (X5_failed_persona_switch
           (run (mount None) [IntervalFires 1; IntervalFires 1]) juscrawler).
  - apply reachable_run, reachable_mount.
  - discriminate.
Defined.

(** X8.  A persona switch does not cancel a send in flight.  When it
    happens while the reply is streaming, the handler stays suspended with
    its buffer; the next chunk then replaces the new welcome entry by the
    reply of the previous persona's session, and a failure of the stream
    empties the transcript. *)
Theorem X8_persona_switch_during_stream (s : State) (k : AiModelKeys)
    (r : jstring) :
  pending s = Some (InStream r) -> k <> currentModel s ->
  let s1 := step s (ModelChange k None) in
  pending s1 = Some (InStream r)
  /\ isLoading s1 = isLoading s
  /\ messages s1 = [mkMsg model []]
  /\ (forall chunkText,
        messages (step s1 (StreamChunk chunkText))
          = [mkMsg model (r ++ stringOf chunkText)])
  /\ (forall err, messages (step s1 (Rejects err)) = []).
Proof.
  intros Hp Hk s1.
  destruct (ModelChange_created s k Hk) as (_ & _ & Hm1 & Hp1 & Hl1).
  fold s1 in Hm1, Hp1, Hl1. clearbody s1. rewrite Hp in Hp1.
  repeat split; try done.
  - intros chunkText. simpl. rewrite Hp1. simpl. by rewrite Hm1.
  - intros err. simpl. rewrite Hp1. simpl. by rewrite Hm1.
Qed.

Lemma X8_persona_switch_during_stream_witness :
  let s := run (mount None)
             [InputChange (js "hi"); Submit; StreamResolves;
              StreamChunk (Some (js "Hel"))] in
  let s1 := step s (ModelChange processual None) in
  messages (step s1 (StreamChunk (Some (js "lo")))) = [mkMsg model (js "Hel" ++ js "lo")]
  /\ messages (step s1 (Rejects OtherValue)) = [].
Proof.
  intros s s1.
  assert (Hp : pending s = Some (InStream (js "Hel"))) by (vm_compute; reflexivity).
  assert (Hk : processual <> currentModel s) by (vm_compute; discriminate).
  destruct (X8_persona_switch_during_stream s processual (js "Hel") Hp Hk)
    as (_ & _ & _ & H4 & H5).
  exact (conj (H4 (Some (js "lo"))) (H5 OtherValue)).
Defined.

(** ** What a standard-chat send transmits *)

(** X6.  A standard-chat send transmits the input text as typed (not
    trimmed) through the session that was active when it was submitted.
    Without attachment the message is the text alone, sent at once; with
    an attachment it is the file part followed by the text, sent when the
    file has been read, and through that same session even if the persona
    was switched meanwhile: the session created by the switch has received
    nothing. *)
Theorem X6_standard_chat_message (s : State) (c : nat) (ch : Chat) :
  sendBlocked s = false -> isDeepSearch s = false ->
  chat s = Some c -> sessions s !! c = Some ch ->
  (attachedFile s = None ->
     sessions (step s Submit)
       = <[c := withSent ch [PartString (input s)]]> (sessions s))
  /\ (forall f data,
        attachedFile s = Some f ->
        sessions (step s Submit) = sessions s
        /\ sessions (run s [Submit; FilePartResolves data])
           = <[c := withSent ch [PartInlineData data (file_type f); PartString (input s)]]>
               (sessions s)
        /\ forall k, k <> currentModel s ->
             let s' := run s [Submit; ModelChange k None; FilePartResolves data] in
             chat s' = Some (length (sessions s))
             /\ sessions s'
                = <[c := withSent ch [PartInlineData data (file_type f); PartString (input s)]]>
                    (sessions s)
                  ++ [startChat (instruction (AI_MODELS k))]).
Proof.
  intros Hb Hd Hc Hch. split.
  - intros Hf. simpl. unfold handleSendMessage. rewrite Hb, Hd, Hc, Hf. simpl.
    by rewrite Hch.
  - intros f data Hf.
    assert (Hs : step s Submit
                 = s |> setInput []
                     |> setMessages (messages s ++
                          [mkMsg user (userText (input s) (attachedFile s))])
                     |> setIsLoading true |> setError None
                     |> setPending (Some (AwaitFilePart c (input s) f))).
    { simpl. unfold handleSendMessage. by rewrite Hb, Hd, Hc, Hf. }
    split; [by rewrite Hs|]. split.
    + unfold run. cbn [fold_left]. rewrite Hs. simpl. by rewrite Hch.
    + intros k Hk s'. subst s'. unfold run. cbn [fold_left].
      assert (Hk1 : k <> currentModel (step s Submit)) by by rewrite Hs.
      destruct (ModelChange_created (step s Submit) k Hk1) as (Hs2 & Hc2 & _ & Hp2 & _).
      set (s2 := step (step s Submit) (ModelChange k None)) in *. clearbody s2.
      rewrite Hs in Hs2, Hc2, Hp2. simpl in Hs2, Hc2, Hp2.
      simpl. rewrite Hp2. simpl. rewrite Hc2, Hs2.
      rewrite lookup_app_l by (by eapply lookup_lt_Some).
      rewrite Hch. split; [done|].
      by rewrite insert_app_l by (by eapply lookup_lt_Some).
Qed.

Lemma X6_standard_chat_message_witness :
  let s := run (mount None) [InputChange (js " hi "); FileChange (Some examplePdf)] in
  let ch := startChat (instruction (AI_MODELS ecoiuris)) in
  sessions (run s [Submit; FilePartResolves (js "JVBERi0=")])
  = <[0 := withSent ch [PartInlineData (js "JVBERi0=") (file_type examplePdf);
                        PartString (input s)]]> (sessions s).
Proof.
  intros s ch.
  assert (Hb : sendBlocked s = false) by (vm_compute; reflexivity).
  assert (Hd : isDeepSearch s = false) by (vm_compute; reflexivity).
  assert (Hc : chat s = Some 0) by (vm_compute; reflexivity).
  assert (Hch : sessions s !! 0 = Some ch) by (vm_compute; reflexivity).
  assert (Hf : attachedFile s = Some examplePdf) by (vm_compute; reflexivity).
  exact (proj1 (proj2 (proj2 (X6_standard_chat_message s 0 ch Hb Hd Hc Hch)
                         examplePdf (js "JVBERi0=") Hf))).
Defined.

Lemma requests_step_cases (s : State) (e : Event) :
  requests (step s e) = requests s
  \/ (e = Submit /\ sendBlocked s = false /\ isDeepSearch s = true).
Proof.
  destruct e; unfold_handlers; unfold_effects;
    repeat (case_match; simpl); auto.
Qed.

(** X7.  The dispatch of a send with deep search on issues exactly one
    one-shot [generateContent] request, the grounded request for the input
    text; every other event, the whole of a standard-chat send and the
    settling of the deep search included, leaves the requests as they
    are. *)
Theorem X7_requests_only_from_deep_search (s : State) :
  (sendBlocked s = false -> isDeepSearch s = true ->
     requests (step s Submit) = requests s ++ [groundedRequest (input s)])
  /\ (forall e,
        e <> Submit \/ sendBlocked s = true \/ isDeepSearch s = false ->
        requests (step s e) = requests s).
Proof.
  split.
  - intros Hb Hd. by destruct (submit_deep_requests s Hb Hd) as (-> & _).
  - intros e He. destruct (requests_step_cases s e) as [H|(-> & Hb & Hd)]; [done|].
    destruct He as [?|[?|?]]; congruence.
Qed.

(** ** Rendering *)

Arguments endsWith : simpl never.

Lemma endsWith_app (t suffix : jstring) : endsWith (t ++ suffix) suffix = true.
Proof.
  unfold endsWith. rewrite length_app.
  replace (length t + length suffix - length suffix) with (length t) by lia.
  rewrite drop_app_length, bool_decide_eq_true_2 by done.
  apply Nat.leb_le. lia.
Qed.

Lemma removelast_cursor (t : jstring) : removelast (t ++ cursor) = t.
Proof. change cursor with [9608%N]. apply removelast_last. Qed.

Lemma ellipsis_no_cursor : endsWith (js "...") cursor = false.
Proof. reflexivity. Qed.

(** X9.  How a model entry is rendered.  A text that ends with the cursor
    glyph is handed to the markup renderer without that one glyph (so a
    reply that really ends with the glyph loses it), any other text as it
    is.  The pulsing typing indicator is shown exactly for the last entry
    while a send is in flight and its text is the placeholder "...".  The
    source list is rendered exactly for a non-empty citation list. *)
Theorem X9_render_model_entry (isLoading : bool) (messages : list Message)
    (message : Message) (index : nat) :
  role message = model ->
  exists markedInput typingIndicator sourceList,
    renderMessage isLoading messages message index
      = ModelBlock markedInput typingIndicator sourceList
    /\ (forall t, text message = t ++ cursor -> markedInput = t)
    /\ (endsWith (text message) cursor = false -> markedInput = text message)
    /\ (typingIndicator = true <->
          isLoading = true /\ S index = length messages /\ text message = js "...")
    /\ (forall cs, sourceList = Some cs <-> citations message = Some cs /\ cs <> []).
Proof.
  intros Hrole. unfold renderMessage. rewrite Hrole.
  eexists _, _, _. split; [reflexivity|]. split; [|split; [|split]].
  - intros t ->. by rewrite endsWith_app, removelast_cursor.
  - by intros ->.
  - destruct (endsWith (text message) cursor) eqn:E.
    + rewrite andb_false_r. split; [done|]. intros (_ & _ & Ht).
      rewrite Ht, ellipsis_no_cursor in E. done.
    + rewrite orb_false_r, andb_true_r, !andb_true_iff, Z.eqb_eq, bool_decide_eq_true.
      split; intros [[? ?] ?] || intros (? & ? & ?); repeat split; (done || lia).
  - intros cs. destruct (citations message) as [[|c cs']|]; simpl;
      (split; [intros H|intros [H Hne]]); try done; by simplify_eq.
Qed.

Lemma X9_render_model_entry_witness :
  exists markedInput typingIndicator sourceList,
    renderMessage true [mkMsg user (js "hi"); mkMsg model (js "Hello" ++ cursor)]
      (mkMsg model (js "Hello" ++ cursor)) 1
      = ModelBlock markedInput typingIndicator sourceList
    /\ markedInput = js "Hello".
Proof.
  destruct (X9_render_model_entry true
              [mkMsg user (js "hi"); mkMsg model (js "Hello" ++ cursor)]
              (mkMsg model (js "Hello" ++ cursor)) 1 eq_refl)
    as (i & t & l & H1 & H2 & _).
  exists i, t, l. split; [exact H1|]. exact (H2 (js "Hello") eq_refl).
Defined.

Lemma banner_no_cursor_at_end : endsWith fullWelcomeMessageText cursor = false.
Proof. vm_compute. reflexivity. Qed.

Lemma banner_not_ellipsis : bool_decide (fullWelcomeMessageText = js "...") = false.
Proof. vm_compute. reflexivity. Qed.

(** X10.  Every frame the welcome animation writes is rendered as a prefix
    of the banner: the cursor glyph never reaches the markup renderer, the
    typing indicator is not shown, and there is no source list. *)
Theorem X10_animation_frames_rendered (s : State) (id : positive) (c : Interval) :
  reachable s -> intervals s !! id = Some c ->
  exists n, n <= length fullWelcomeMessageText
    /\ renderMessages (step s (IntervalFires id))
       = [ModelBlock (take n fullWelcomeMessageText) false None].
Proof.
  intros Hr Hc. destruct (timerInv_reachable s Hr _ _ Hc) as (_ & Ht & Hle & _).
  simpl. rewrite Hc. unfold intervalCallback, renderMessages.
  destruct (frame_i c <? length fullWelcomeMessageText) eqn:E; simpl.
  - apply Nat.ltb_lt in E. exists (S (frame_i c)). split; [lia|].
    unfold renderMessage. simpl.
    rewrite Ht, take_charAt, endsWith_app, removelast_cursor by done.
    by rewrite andb_false_r.
  - apply Nat.ltb_ge in E. exists (length fullWelcomeMessageText). split; [done|].
    unfold renderMessage. simpl.
    replace (frame_i c) with (length fullWelcomeMessageText) in Ht by lia.
    rewrite firstn_all in Ht. rewrite Ht, firstn_all.
    rewrite banner_no_cursor_at_end, banner_not_ellipsis.
    by rewrite andb_false_r.
Qed.

Lemma X10_animation_frames_rendered_witness :
  exists n, n <= length fullWelcomeMessageText
    /\ renderMessages (step (mount None) (IntervalFires 1))
       = [ModelBlock (take n fullWelcomeMessageText) false None].
Proof.
  apply (X10_animation_frames_rendered (mount None) 1
           {| animatedText := []; frame_i := 0 |}).
  - apply reachable_mount.
  - reflexivity.
Defined.

(** ** The form's controls *)

Lemma submitDisabled_sendBlocked (s : State) : submitDisabled s = sendBlocked s.
Proof.
  unfold submitDisabled, sendBlocked.
  by destruct (isLoading s), (truthy (trim (input s))),
       (bool_decide (is_Some (attachedFile s))), (bool_decide (is_Some (chat s))).
Qed.

(** X11.  The send button is disabled exactly when a submission would be
    ignored: its [disabled] expression and the guard of
    [handleSendMessage] agree in every state. *)
Theorem X11_send_button_matches_guard (s : State) :
  submitDisabled s = sendBlocked s
  /\ (submitDisabled s = true <-> step s Submit = s).
Proof.
  pose proof (submitDisabled_sendBlocked s) as Heq.
  split; [done|]. rewrite Heq. simpl. unfold handleSendMessage.
  destruct (sendBlocked s) eqn:Hb; [done|]. split; [done|].
  destruct (sendBlocked_false s Hb) as (Hl & [c Hc] & _). rewrite Hc.
  intros H. apply (f_equal isLoading) in H. revert H.
  destruct (isDeepSearch s), (attachedFile s); simpl; congruence.
Qed.

(** X12.  The code button wraps the input in a fence of three backquotes
    on lines of their own; whatever the input was, empty included, the
    wrapped text passes the send guard as soon as a session exists. *)
Theorem X12_format_as_code (s : State) :
  isLoading s = false -> is_Some (chat s) ->
  let s' := step s FormatAsCode in
  input s' = js "```" ++ nl ++ input s ++ nl ++ js "```"
  /\ sendBlocked s' = false
  /\ submitDisabled s' = false.
Proof.
  intros Hl [c Hc] s'.
  assert (Hi : input s' = js "```" ++ nl ++ input s ++ nl ++ js "```").
  { subst s'. simpl. by rewrite Hl. }
  assert (Hb : sendBlocked s' = false).
  { unfold sendBlocked. rewrite Hi.
    assert (Htrim : truthy (trim (js "```" ++ nl ++ input s ++ nl ++ js "```")) = true).
    { destruct (truthy _) eqn:E; [done|]. apply trim_falsy_iff in E.
      change (js "```") with [96%N; 96%N; 96%N] in E. discriminate E. }
    rewrite Htrim. subst s'. simpl. rewrite Hl. simpl. by rewrite Hl, Hc. }
  split; [done|]. split; [done|].
  by rewrite submitDisabled_sendBlocked.
Qed.

Lemma X12_format_as_code_witness :
  let s := mount None in
  let s' := step s FormatAsCode in
  input s' = js "```" ++ nl ++ input s ++ nl ++ js "```"
  /\ sendBlocked s' = false
  /\ submitDisabled s' = false.
Proof.
  apply (X12_format_as_code (mount None)).
  - reflexivity.
  - eexists. reflexivity.
Defined.

(** X14.  Without a session nothing can be sent: the input and the send
    button are disabled, a submission is ignored, and no event other than
    a persona switch that creates a session brings one. *)
Theorem X14_no_session_no_send (s : State) :
  chat s = None ->
  inputDisabled s = true /\ submitDisabled s = true
  /\ step s Submit = s
  /\ (forall e, (forall k, e <> ModelChange k None) -> chat (step s e) = None).
Proof.
  intros Hc. split; [|split; [|split]].
  - unfold inputDisabled. by rewrite Hc, orb_true_r.
  - unfold submitDisabled. by rewrite Hc, orb_true_r.
  - simpl. unfold handleSendMessage, sendBlocked. by rewrite Hc, orb_true_r.
  - intros e He. destruct e as [k [t|]| | | | | | | | | | | | |];
      try (by exfalso; eapply He);
      unfold_handlers; unfold sendBlocked; unfold_effects;
      rewrite ?Hc, ?orb_true_r; simpl; repeat (case_match; simpl); done.
Qed.

Lemma X14_no_session_no_send_witness :
  let s := mount (Some OtherValue) in
  inputDisabled s = true /\ submitDisabled s = true
  /\ step s Submit = s
  /\ (forall e, (forall k, e <> ModelChange k None) -> chat (step s e) = None).
Proof.
  apply (X14_no_session_no_send (mount (Some OtherValue))). reflexivity.
Defined.

(** ** Exporting *)

Lemma join_app (sep : jstring) (l1 l2 : list jstring) :
  l1 <> [] -> l2 <> [] -> join sep (l1 ++ l2) = join sep l1 ++ sep ++ join sep l2.
Proof.
  intros H1 H2. induction l1 as [|x l1 IH]; [done|].
  destruct l1 as [|y l1].
  - simpl. by destruct l2.
  - change (join sep ((x :: y :: l1) ++ l2))
      with (x ++ sep ++ join sep ((y :: l1) ++ l2)).
    rewrite IH by done.
    change (join sep (x :: y :: l1)) with (x ++ sep ++ join sep (y :: l1)).
    by rewrite <- !app_assoc.
Qed.

(** X13.  The export of a transcript made of two non-empty parts is the
    export of the first, the separator, and the export of the second: an
    entry's rendering does not depend on its position or on its
    neighbours.  The export of the empty transcript is the empty text. *)
Theorem X13_export_composes (textContent innerText : jstring -> jstring)
    (ms1 ms2 : list Message) :
  ms1 <> [] -> ms2 <> [] ->
  handleDownloadChat textContent innerText (ms1 ++ ms2)
    = handleDownloadChat textContent innerText ms1
      ++ separator ++ handleDownloadChat textContent innerText ms2
  /\ handleDownloadChat textContent innerText [] = [].
Proof.
  intros H1 H2. split; [|done]. unfold handleDownloadChat. fold separator.
  rewrite map_app. apply join_app; by destruct ms1, ms2.
Qed.

Lemma X13_export_composes_witness :
  handleDownloadChat (fun html => html) (fun html => html)
    ([mkMsg model (js "Welcome")] ++ [mkMsg user (js "hi")])
  = handleDownloadChat (fun html => html) (fun html => html) [mkMsg model (js "Welcome")]
    ++ separator
    ++ handleDownloadChat (fun html => html) (fun html => html) [mkMsg user (js "hi")].
Proof.
  refine (proj1 (X13_export_composes _ _ [mkMsg model (js "Welcome")]
                   [mkMsg user (js "hi")] _ _)); discriminate.
Defined.
